(** * GILC Tesseract core: relationship graph, execution ledger, chain sync

    A shallow embedding of three Python modules of the repository,

    - [braid_connector.py]     (module [Braid]),
    - [execution_registry.py]  (module [Registry]),
    - [netsync_scrollchain.py] (module [NetSync]),

    and the properties of them that the specification states.

    Conventions of the embedding.
    - Python objects that are mutated through several references
      ([DocumentNode]) live in an object store indexed by locations; a
      reference is a location, [==] on nodes is equality of locations.
    - A Python [float] is a rational ([Q]); the code only compares,
      subtracts and divides floats, no claim depends on rounding.
    - An exception is a value [Raise e] of type [outcome]; state reached
      before the exception is kept, as in Python.
    - Wall-clock reads ([time.time()], [datetime.utcnow()]) are arguments of
      the operation that performs them.
    - Library functions (hashes, [json.dumps], [str.lower], [pathlib]) are
      fields of the class [PyRuntime]; nothing is assumed about them. *)

From Stdlib Require Import QArith Qminmax ZArith NArith String Ascii HexString List Lia Bool.
From Stdlib Require Import Sorted Permutation.
From stdpp Require Import base option list gmap sets strings.

Local Open Scope string_scope.

#[local] Set Warnings "-register-all".

(** ** Python values *)

Module Py.

(** JSON documents as [json.load] returns them. Numbers are rationals. *)
Inductive json : Type :=
| JNull
| JBool (b : bool)
| JNum (q : Q)
| JStr (s : string)
| JArr (l : list json)
| JObj (kv : list (string * json)).

(** A [dict] with string keys, in insertion order. *)
Abbreviation dict := (list (string * json)).

Section Dict.
Context {V : Type}.

(** [d.get(k)] *)
Fixpoint dict_get (k : string) (d : list (string * V)) : option V :=
  match d with
  | [] => None
  | (k', v) :: d' => if String.eqb k k' then Some v else dict_get k d'
  end.

(** [k in d] *)
Definition dict_mem (k : string) (d : list (string * V)) : bool :=
  match dict_get k d with Some _ => true | None => false end.

(** [d[k] = v]: an existing key keeps its position, a new key goes last. *)
Fixpoint dict_set (k : string) (v : V) (d : list (string * V)) : list (string * V) :=
  match d with
  | [] => [(k, v)]
  | (k', v') :: d' =>
      if String.eqb k k' then (k, v) :: d' else (k', v') :: dict_set k v d'
  end.

Definition dict_keys (d : list (string * V)) : list string := map fst d.
Definition dict_values (d : list (string * V)) : list V := map snd d.

End Dict.

(** The exceptions the modelled code can raise. *)
Inductive exn : Type :=
| RecursionError
| TypeError
| KeyError
| AttributeError
| ValueError.

Inductive outcome (A : Type) : Type :=
| Ok (a : A)
| Raise (e : exn).
Arguments Ok {A} a.
Arguments Raise {A} e.

(** [x or {}] for an optional dict argument: [None] and the empty dict are
    both falsy. *)
Definition or_empty (metadata : option dict) : dict :=
  match metadata with
  | Some (b :: d) => b :: d
  | _ => []
  end.

(** Library functions the code calls. *)
Class PyRuntime : Type := {
  (** [hashlib.sha256(s.encode()).hexdigest()] *)
  sha256_hexdigest : string -> string;
  (** [hashlib.sha3_256(s.encode()).hexdigest()] *)
  sha3_256_hexdigest : string -> string;
  (** [json.dumps(v, sort_keys=True)] *)
  json_dumps_sorted : json -> string;
  (** [str(v)], as an f-string renders a value *)
  str_of : json -> string;
  (** [Path(p).stem] *)
  path_stem : string -> string;
  (** [s.lower()] *)
  str_lower : string -> string;
  (** [os.path.abspath(p)] *)
  abspath : string -> string
}.

(** A file as [json.load] reads it: a JSON document, or text that is not
    JSON. *)
Inductive file_content : Type :=
| NotJson
| Json (v : json).

End Py.

Import Py.

(** ** braid_connector.py *)

Module Braid.

(** A reference to a [DocumentNode] object. *)
Abbreviation loc := positive.

(** [class DocumentLink]: the fields [__init__] assigns. *)
Record DocumentLink : Type := mkLink {
  source : loc;
  target : loc;
  link_type : string;
  weight : Q;
  metadata : dict
}.

(** [class DocumentNode] *)
Record DocumentNode : Type := mkNode {
  id : string;
  path : string;
  node_metadata : dict;
  links : list DocumentLink;
  embeddings : gmap string (list Q);
  tags : gset string;
  title : json;
  doc_type : json
}.

(** [class SemanticBraid] *)
Record SemanticBraid : Type := mkBraid {
  nodes : gmap string loc;
  link_types : gset string;
  tag_index : gmap string (gset loc)
}.

(** The object store together with the braid that the operations act on.
    [fresh] is the location the next [DocumentNode(...)] is allocated at. *)
Record World : Type := mkWorld {
  objects : gmap loc DocumentNode;
  fresh : loc;
  braid : SemanticBraid
}.

(** [SemanticBraid.__init__] in an empty store. *)
Definition create_semantic_braid : World :=
  {| objects := ∅; fresh := 1%positive;
     braid := {| nodes := ∅; link_types := ∅; tag_index := ∅ |} |}.

(** Operations are state transformers that return a value or raise. *)
Definition M (A : Type) : Type := World -> outcome A * World.

Definition ret {A} (a : A) : M A := fun w => (Ok a, w).
Definition raise {A} (e : exn) : M A := fun w => (Raise e, w).
Definition bind {A B} (m : M A) (k : A -> M B) : M B :=
  fun w => match m w with
           | (Ok a, w') => k a w'
           | (Raise e, w') => (Raise e, w')
           end.
Definition get_world : M World := fun w => (Ok w, w).
Definition put_world (w : World) : M unit := fun _ => (Ok tt, w).
Definition modify_braid (f : SemanticBraid -> SemanticBraid) : M unit :=
  fun w => (Ok tt, {| objects := objects w; fresh := fresh w; braid := f (braid w) |}).
Definition modify_objects
  (f : gmap loc DocumentNode -> gmap loc DocumentNode) : M unit :=
  fun w => (Ok tt, {| objects := f (objects w); fresh := fresh w; braid := braid w |}).

Declare Scope braid_scope.
Delimit Scope braid_scope with braid.
Notation "x <- m ;; k" := (bind m (fun x => k))
  (at level 100, m at next level, right associativity) : braid_scope.
Notation "m ;;; k" := (bind m (fun _ => k))
  (at level 100, right associativity) : braid_scope.
Local Open Scope braid_scope.

(** Python's two-argument [min] and [max]: the first argument is kept unless
    the second is strictly smaller (larger). *)
Definition py_min (a b : Q) : Q := if Qle_bool a b then a else b.
Definition py_max (a b : Q) : Q := if Qle_bool b a then a else b.

(** [link_type in ['similar_to', 'related_to']] *)
Definition is_symmetric (link_type : string) : bool :=
  String.eqb link_type "similar_to" || String.eqb link_type "related_to".

(** [node.links.append(link)] on the node object at [l]. *)
Definition append_link (l : loc) (link : DocumentLink)
  (objs : gmap loc DocumentNode) : gmap loc DocumentNode :=
  alter (fun n => {| id := id n; path := path n; node_metadata := node_metadata n;
                     links := (links n ++ [link])%list; embeddings := embeddings n;
                     tags := tags n; title := title n; doc_type := doc_type n |})
        l objs.

(** [DocumentLink.__init__]. [depth] is the number of Python frames still
    available below the interpreter's recursion limit when the constructor
    is entered; entering it with none left raises [RecursionError]. The
    reverse link is built by the same constructor, with the caller's
    [link_type], [weight] and [metadata]. *)
Fixpoint DocumentLink_init (depth : nat) (source target : loc)
  (link_type : string) (weight : Q) (metadata : option dict) : M DocumentLink :=
  match depth with
  | O => raise RecursionError
  | S depth' =>
      let self := {| source := source; target := target; link_type := link_type;
                     weight := py_max 0 (py_min 1 weight);
                     metadata := or_empty metadata |} in
      if is_symmetric link_type then
        reverse_link <- DocumentLink_init depth' target source link_type weight metadata ;;
        modify_objects (append_link target reverse_link) ;;;
        ret self
      else ret self
  end.

Section WithRuntime.
Context `{PyRuntime}.

(** [DocumentNode._generate_id] *)
Definition _generate_id (path : string) (title doc_type : json) : string :=
  sha256_hexdigest (path ++ ":" ++ str_of title ++ ":" ++ str_of doc_type).

(** [DocumentNode.__init__]: the new object. [tags] starts empty whatever
    [metadata] holds. *)
Definition DocumentNode_init (doc_id doc_path : string) (metadata : option dict)
  : DocumentNode :=
  let md := or_empty metadata in
  let title := default (JStr (path_stem doc_path)) (dict_get "title" md) in
  let doc_type := default (JStr "document") (dict_get "type" md) in
  {| id := if String.eqb doc_id "" then _generate_id doc_path title doc_type
           else doc_id;
     path := doc_path;
     node_metadata := md;
     links := [];
     embeddings := ∅;
     tags := ∅;
     title := title;
     doc_type := doc_type |}.

(** [DocumentNode.add_tag] on the node object at [l]. *)
Definition add_tag (l : loc) (tag : string) : M unit :=
  modify_objects
    (alter (fun n => {| id := id n; path := path n; node_metadata := node_metadata n;
                        links := links n; embeddings := embeddings n;
                        tags := {[str_lower tag]} ∪ tags n;
                        title := title n; doc_type := doc_type n |}) l).

(** [DocumentNode.has_tag] *)
Definition has_tag (l : loc) (tag : string) : M bool :=
  w <- get_world ;;
  ret (match objects w !! l with
       | Some n => bool_decide (str_lower tag ∈ tags n)
       | None => false
       end).

(** [DocumentNode.add_link] on the node object at [self]. *)
Definition add_link (depth : nat) (self target : loc) (link_type : string)
  (weight : Q) (metadata : option dict) : M DocumentLink :=
  link <- DocumentLink_init depth self target link_type weight
            (Some (or_empty metadata)) ;;
  modify_objects (append_link self link) ;;;
  ret link.

(** [self.tag_index[tag].add(node)] on the [defaultdict(set)]. *)
Definition index_tag (node : loc) (tag : string)
  (idx : gmap string (gset loc)) : gmap string (gset loc) :=
  <[tag := {[node]} ∪ default ∅ (idx !! tag)]> idx.

(** [SemanticBraid.add_document]. The warning on an existing id is only
    logged. *)
Definition add_document (doc_id doc_path : string) (metadata : option dict)
  : M loc :=
  w <- get_world ;;
  let node := DocumentNode_init doc_id doc_path metadata in
  let l := fresh w in
  put_world {| objects := <[l := node]> (objects w);
               fresh := Pos.succ l;
               braid := {| nodes := <[doc_id := l]> (nodes (braid w));
                           link_types := link_types (braid w);
                           tag_index := foldr (index_tag l)
                                          (tag_index (braid w))
                                          (elements (tags node)) |} |} ;;;
  ret l.

(** [SemanticBraid.get_document] *)
Definition get_document (doc_id : string) : M (option loc) :=
  w <- get_world ;;
  ret (nodes (braid w) !! doc_id).

(** [SemanticBraid.find_documents_by_tag]; [.get] on the [defaultdict]
    inserts nothing. The order of the returned list is that of a set. *)
Definition find_documents_by_tag (tag : string) : M (list loc) :=
  w <- get_world ;;
  ret (elements (default ∅ (tag_index (braid w) !! str_lower tag))).

(** [SemanticBraid.link_documents] *)
Definition link_documents (depth : nat) (source_id target_id link_type : string)
  (weight : Q) (metadata : option dict) : M (option DocumentLink) :=
  source <- get_document source_id ;;
  target <- get_document target_id ;;
  match source, target with
  | Some s, Some t =>
      modify_braid (fun b => {| nodes := nodes b;
                                link_types := {[link_type]} ∪ link_types b;
                                tag_index := tag_index b |}) ;;;
      link <- add_link depth s t link_type weight metadata ;;
      ret (Some link)
  | _, _ => ret None
  end.

(** [sorted(related, key=lambda x: x[1], reverse=True)]: a stable sort by
    weight, largest first; equal weights keep their order. *)
Fixpoint insert_desc (x : loc * Q) (l : list (loc * Q)) : list (loc * Q) :=
  match l with
  | [] => [x]
  | y :: l' => if Qle_bool (snd y) (snd x) then x :: y :: l'
               else y :: insert_desc x l'
  end.
Definition sorted_desc (l : list (loc * Q)) : list (loc * Q) :=
  foldr insert_desc [] l.

(** The links of the node object at [l]. *)
Definition links_of (objs : gmap loc DocumentNode) (l : loc) : list DocumentLink :=
  match objs !! l with Some n => links n | None => [] end.

(** [SemanticBraid.find_related_documents] *)
Definition find_related_documents (doc_id : string) (link_type : option string)
  (min_weight : Q) : M (list (loc * Q)) :=
  node <- get_document doc_id ;;
  match node with
  | None => ret []
  | Some n =>
      w <- get_world ;;
      let related :=
        omap (fun link : DocumentLink =>
                if match link_type with
                   | None => true
                   | Some t => String.eqb (Braid.link_type link) t
                   end && Qle_bool min_weight (weight link)
                then Some (target link, weight link) else None)
             (links_of (objects w) n) in
      ret (sorted_desc related)
  end.

(** The [for link in current.links] loop of [get_shortest_path]: it either
    returns the path to the target or leaves the updated [visited] set and
    [queue]. *)
Inductive scan_result : Type :=
| Found (path : list loc)
| Continue (visited : gset loc) (queue : list (loc * list loc)).

Fixpoint scan_links (target : loc) (path : list loc) (ls : list DocumentLink)
  (visited : gset loc) (queue : list (loc * list loc)) : scan_result :=
  match ls with
  | [] => Continue visited queue
  | link :: rest =>
      let t := Braid.target link in
      if bool_decide (t ∈ visited) then scan_links target path rest visited queue
      else if Pos.eqb t target then Found (path ++ [target])%list
      else scan_links target path rest ({[t]} ∪ visited)
             (queue ++ [(t, (path ++ [t])%list)])%list
  end.

(** The [while queue and max_hops >= 0] loop, unrolled [fuel] times. The
    body dequeues one node, scans its links and ends with [max_hops -= 1].
    Since [max_hops] drops by one in every iteration, [max_hops + 1]
    iterations exhaust it: [get_shortest_path] supplies that much fuel, and
    more fuel changes nothing (lemma [bfs_loop_fuel]). *)
Fixpoint bfs_loop (fuel : nat) (objs : gmap loc DocumentNode) (target : loc)
  (visited : gset loc) (queue : list (loc * list loc)) (max_hops : Z)
  : option (list loc) :=
  match fuel with
  | O => None
  | S fuel' =>
      match queue with
      | [] => None
      | (current, path) :: queue' =>
          if (max_hops <? 0)%Z then None
          else
            match scan_links target path (links_of objs current) visited queue' with
            | Found p => Some p
            | Continue visited' queue'' =>
                bfs_loop fuel' objs target visited' queue'' (max_hops - 1)
            end
      end
  end.

(** [SemanticBraid.get_shortest_path] *)
Definition get_shortest_path (source_id target_id : string) (max_hops : Z)
  : M (option (list loc)) :=
  source <- get_document source_id ;;
  target <- get_document target_id ;;
  match source, target with
  | Some s, Some t =>
      if Pos.eqb s t then ret (Some [s])
      else
        w <- get_world ;;
        ret (bfs_loop (Z.to_nat (max_hops + 1)) (objects w) t {[s]} [(s, [s])]
               max_hops)
  | _, _ => ret None
  end.

(** The search as the specification words it, for comparison with the
    code: the hop budget is decremented once per level of the breadth-first
    search. One iteration scans the links of every node of the current
    level, in queue order, and collects the next level. *)
Fixpoint scan_level (objs : gmap loc DocumentNode) (target : loc)
  (level : list (loc * list loc)) (visited : gset loc)
  (next : list (loc * list loc)) : scan_result :=
  match level with
  | [] => Continue visited next
  | (current, path) :: level' =>
      match scan_links target path (links_of objs current) visited next with
      | Found p => Found p
      | Continue visited' next' => scan_level objs target level' visited' next'
      end
  end.

Fixpoint bfs_by_level (fuel : nat) (objs : gmap loc DocumentNode) (target : loc)
  (visited : gset loc) (level : list (loc * list loc)) (max_hops : Z)
  : option (list loc) :=
  match fuel with
  | O => None
  | S fuel' =>
      match level with
      | [] => None
      | _ :: _ =>
          if (max_hops <? 0)%Z then None
          else
            match scan_level objs target level visited [] with
            | Found p => Some p
            | Continue visited' next =>
                bfs_by_level fuel' objs target visited' next (max_hops - 1)
            end
      end
  end.

Definition shortest_path_by_level (source_id target_id : string) (max_hops : Z)
  : M (option (list loc)) :=
  source <- get_document source_id ;;
  target <- get_document target_id ;;
  match source, target with
  | Some s, Some t =>
      if Pos.eqb s t then ret (Some [s])
      else
        w <- get_world ;;
        ret (bfs_by_level (Z.to_nat (max_hops + 1)) (objects w) t {[s]} [(s, [s])]
               max_hops)
  | _, _ => ret None
  end.

End WithRuntime.

(** [DocumentNode.get_links] on the node object at [l]. *)
Definition get_links (l : loc) (link_type : option string) : M (list DocumentLink) :=
  w <- get_world ;;
  ret (match link_type with
       | None => links_of (objects w) l
       | Some t =>
           List.filter (fun link => String.eqb (Braid.link_type link) t)
                       (links_of (objects w) l)
       end).

(** [DocumentNode.add_embedding] on the node object at [l]. *)
Definition add_embedding (l : loc) (model_name : string) (embedding : list Q)
  : M unit :=
  modify_objects
    (alter (fun n => {| id := id n; path := path n; node_metadata := node_metadata n;
                        links := links n;
                        embeddings := <[model_name := embedding]> (embeddings n);
                        tags := tags n; title := title n; doc_type := doc_type n |}) l).

(** [DocumentNode.get_embedding] on the node object at [l]. *)
Definition get_embedding (l : loc) (model_name : string) : M (option (list Q)) :=
  w <- get_world ;;
  ret (match objects w !! l with
       | Some n => embeddings n !! model_name
       | None => None
       end).

End Braid.

(** ** execution_registry.py *)

Module Registry.

(** [class ExecutionStatus(Enum)] *)
Inductive ExecutionStatus : Type :=
| PENDING
| RUNNING
| COMPLETED
| FAILED
| CANCELLED.

(** [status.name] and [ExecutionStatus[name]] *)
Definition status_name (s : ExecutionStatus) : string :=
  match s with
  | PENDING => "PENDING"
  | RUNNING => "RUNNING"
  | COMPLETED => "COMPLETED"
  | FAILED => "FAILED"
  | CANCELLED => "CANCELLED"
  end.

Definition status_of_name (name : string) : option ExecutionStatus :=
  List.find (fun s => String.eqb (status_name s) name)
       [PENDING; RUNNING; COMPLETED; FAILED; CANCELLED].

Definition status_eqb (a b : ExecutionStatus) : bool :=
  String.eqb (status_name a) (status_name b).

(** [@dataclass class ExecutionRecord] *)
Record ExecutionRecord : Type := mkRecord {
  execution_id : string;
  kernel_name : string;
  doc_path : string;
  start_time : Q;
  end_time : option Q;
  status : ExecutionStatus;
  input_metadata : dict;
  output : option dict;
  error : option string;
  context : dict;
  quantum_seal : option string;
  parent_execution_id : option string;
  child_executions : list string;
  metrics : dict
}.

(** Truthiness of a float: [0.0] is falsy. *)
Definition truthy_float (q : Q) : bool := negb (Qeq_bool q 0).

(** [ExecutionRecord.duration] *)
Definition duration (r : ExecutionRecord) : option Q :=
  match end_time r with
  | Some e => if truthy_float e && truthy_float (start_time r)
              then Some (e - start_time r)%Q else None
  | None => None
  end.

Definition json_opt {A} (f : A -> json) (o : option A) : json :=
  match o with Some a => f a | None => JNull end.

(** [ExecutionRecord.to_dict]: [asdict(self)] in field order, with the
    status replaced by its name and the key ["duration"] added last. *)
Definition to_dict (r : ExecutionRecord) : dict :=
  [ ("execution_id", JStr (execution_id r));
    ("kernel_name", JStr (kernel_name r));
    ("doc_path", JStr (doc_path r));
    ("start_time", JNum (start_time r));
    ("end_time", json_opt JNum (end_time r));
    ("status", JStr (status_name (status r)));
    ("input_metadata", JObj (input_metadata r));
    ("output", json_opt JObj (output r));
    ("error", json_opt JStr (error r));
    ("context", JObj (context r));
    ("quantum_seal", json_opt JStr (quantum_seal r));
    ("parent_execution_id", json_opt JStr (parent_execution_id r));
    ("child_executions", JArr (map JStr (child_executions r)));
    ("metrics", JObj (metrics r));
    ("duration", json_opt JNum (duration r)) ].

(** The keyword arguments the generated [__init__] of the dataclass
    accepts, and those without a default. *)
Definition field_names : list string :=
  [ "execution_id"; "kernel_name"; "doc_path"; "start_time"; "end_time";
    "status"; "input_metadata"; "output"; "error"; "context"; "quantum_seal";
    "parent_execution_id"; "child_executions"; "metrics" ].

Definition required_fields : list string :=
  [ "execution_id"; "kernel_name"; "doc_path"; "start_time" ].

Definition str_in (k : string) (l : list string) : bool :=
  existsb (String.eqb k) l.

(** What [from_dict] leaves under ["status"] before it calls [cls]. *)
Inductive status_arg : Type :=
| StatusAbsent
| StatusMember (s : ExecutionStatus)
| StatusOther (v : json).

(** Readers of the JSON shapes that [to_dict] writes. *)
Definition as_str (v : json) : option string :=
  match v with JStr s => Some s | _ => None end.
Definition as_num (v : json) : option Q :=
  match v with JNum q => Some q | _ => None end.
Definition as_obj (v : json) : option dict :=
  match v with JObj d => Some d | _ => None end.
Definition as_nullable {A} (f : json -> option A) (v : json) : option (option A) :=
  match v with JNull => Some None | _ => Some <$> f v end.
Definition as_str_list (v : json) : option (list string) :=
  match v with JArr l => mapM as_str l | _ => None end.

(** A keyword argument with its dataclass default. *)
Definition kwarg {A} (read : json -> option A) (k : string) (dflt : A)
  (data : dict) : option A :=
  match dict_get k data with Some v => read v | None => Some dflt end.

(** The dataclass constructor, called with the entries of [data] as
    keyword arguments, once the keywords are known to be fields: the record
    with the given values. A dataclass stores any value under any field; the
    records of this model are typed, and a value of another shape than
    [to_dict] writes is outside it ([None]). *)
Definition cls (data : dict) (st : status_arg) : option ExecutionRecord :=
  id ← dict_get "execution_id" data ≫= as_str;
  kn ← dict_get "kernel_name" data ≫= as_str;
  dp ← dict_get "doc_path" data ≫= as_str;
  t0 ← dict_get "start_time" data ≫= as_num;
  t1 ← kwarg (as_nullable as_num) "end_time" None data;
  s ← match st with
      | StatusAbsent => Some PENDING
      | StatusMember s => Some s
      | StatusOther _ => None
      end;
  im ← kwarg as_obj "input_metadata" [] data;
  out ← kwarg (as_nullable as_obj) "output" None data;
  err ← kwarg (as_nullable as_str) "error" None data;
  ctx ← kwarg as_obj "context" [] data;
  seal ← kwarg (as_nullable as_str) "quantum_seal" None data;
  par ← kwarg (as_nullable as_str) "parent_execution_id" None data;
  ch ← kwarg as_str_list "child_executions" [] data;
  me ← kwarg as_obj "metrics" [] data;
  Some {| execution_id := id; kernel_name := kn; doc_path := dp; start_time := t0;
          end_time := t1; status := s; input_metadata := im; output := out;
          error := err; context := ctx; quantum_seal := seal;
          parent_execution_id := par; child_executions := ch; metrics := me |}.

(** The result of [from_dict]: a record, a Python exception, or a record
    this typed model has no value for. *)
Inductive loaded : Type :=
| Loaded (r : ExecutionRecord)
| Raised (e : exn)
| Untyped.

(** [ExecutionRecord.from_dict]: the status name is converted first
    ([KeyError] on a name that is no member), then the constructor is called
    with the entries of [data] as keywords, which raises [TypeError] on a
    keyword that is no field and on a missing required field. *)
Definition from_dict (data : dict) : loaded :=
  match
    match dict_get "status" data with
    | None => Ok StatusAbsent
    | Some (JStr name) =>
        match status_of_name name with
        | Some s => Ok (StatusMember s)
        | None => Raise KeyError
        end
    | Some v => Ok (StatusOther v)
    end
  with
  | Raise e => Raised e
  | Ok st =>
      if negb (forallb (fun k => str_in k field_names) (dict_keys data))
      then Raised TypeError
      else if negb (forallb (fun k => dict_mem k data) required_fields)
      then Raised TypeError
      else match cls data st with
           | Some r => Loaded r
           | None => Untyped
           end
  end.

(** [class ExecutionRegistry]. [records] is a [dict] in insertion order;
    the counter starts at 1 and only grows, so it is a natural number. *)
Record ExecutionRegistry : Type := mkRegistry {
  records : list (string * ExecutionRecord);
  storage_path : option string;
  _next_execution_id : N
}.

(** A registry and the file system as far as it sees it: the file at its
    [storage_path], if there is one. *)
Record State : Type := mkState {
  registry : ExecutionRegistry;
  disk : option file_content
}.

(** [s.split('-')[-1]] *)
Fixpoint last_segment_from (s acc : string) : string :=
  match s with
  | EmptyString => acc
  | String c s' =>
      if Ascii.eqb c "-" then last_segment_from s' s'
      else last_segment_from s' acc
  end.
Definition last_segment (s : string) : string := last_segment_from s s.

Definition is_hex_char (c : ascii) : bool :=
  match HexString.ascii_to_digit c with Some _ => true | None => false end.

Fixpoint all_chars (p : ascii -> bool) (s : string) : bool :=
  match s with
  | EmptyString => true
  | String c s' => p c && all_chars p s'
  end.

(** [int(s, 16)] on a non-empty string of hexadecimal digits; [None] is
    [ValueError]. Signs, a [0x] prefix, underscores and surrounding blanks,
    which Python also accepts, are not read: no id the registry generates
    has them in its last segment. *)
Definition int16 (s : string) : option N :=
  match s with
  | EmptyString => None
  | _ => if all_chars is_hex_char s then Some (HexString.Raw.to_N s 0%N) else None
  end.

(** [f"{n:x}"] *)
Definition format_x (n : N) : string :=
  match n with
  | N0 => "0"
  | Npos p => HexString.Raw.of_pos p ""
  end.

Definition format_x_Z (z : Z) : string :=
  match z with
  | Zneg p => "-" ++ format_x (Npos p)
  | _ => format_x (Z.to_N z)
  end.

(** One step of the loop of [_load_records] over [data['records']]. *)
Definition load_record (record_data : json) (reg : ExecutionRegistry)
  : ExecutionRegistry :=
  match record_data with
  | JObj data =>
      match from_dict data with
      | Loaded record =>
          {| records := dict_set (execution_id record) record (records reg);
             storage_path := storage_path reg;
             _next_execution_id :=
               match int16 (last_segment (execution_id record)) with
               | Some record_num =>
                   N.max (_next_execution_id reg) (record_num + 1)
               | None => _next_execution_id reg
               end |}
      | _ => reg
      end
  | _ => reg
  end.

(** [ExecutionRegistry._load_records]; every exception is logged and
    swallowed. *)
Definition _load_records (st : State) : ExecutionRegistry :=
  let reg := registry st in
  match storage_path reg, disk st with
  | Some _, Some (Json (JObj data)) =>
      match dict_get "records" data with
      | Some (JArr l) => fold_left (fun reg rd => load_record rd reg) l reg
      | _ => reg
      end
  | _, _ => reg
  end.

(** [ExecutionRegistry.__init__] *)
Definition ExecutionRegistry_init (storage_path : option string)
  (disk : option file_content) : State :=
  let reg := {| records := []; storage_path := storage_path;
                _next_execution_id := 1 |} in
  {| registry := _load_records {| registry := reg; disk := disk |};
     disk := disk |}.

(** [ExecutionRegistry._save_records]; [utcnow] is
    [datetime.utcnow().isoformat()]. *)
Definition _save_records (utcnow : string) (st : State) : State :=
  match storage_path (registry st) with
  | None => st
  | Some _ =>
      {| registry := registry st;
         disk := Some (Json (JObj
           [ ("version", JStr "1.0");
             ("records", JArr (map (fun r => JObj (to_dict r))
                                   (dict_values (records (registry st)))));
             ("last_updated", JStr utcnow) ])) |}
  end.

Definition with_records (f : list (string * ExecutionRecord) ->
                             list (string * ExecutionRecord))
  (st : State) : State :=
  {| registry := {| records := f (records (registry st));
                    storage_path := storage_path (registry st);
                    _next_execution_id := _next_execution_id (registry st) |};
     disk := disk st |}.

(** [ExecutionRegistry._generate_execution_id]; [timestamp] is
    [int(time.time() * 1000)]. *)
Definition _generate_execution_id (timestamp : Z) (st : State) : string * State :=
  let reg := registry st in
  ("ex-" ++ format_x_Z timestamp ++ "-" ++ format_x (_next_execution_id reg),
   {| registry := {| records := records reg; storage_path := storage_path reg;
                     _next_execution_id := _next_execution_id reg + 1 |};
      disk := disk st |}).

(** The clock reads of one call of [start_execution]. *)
Record StartClock : Type := mkStartClock {
  id_timestamp : Z;
  started_at : Q;
  saved_at : string
}.

Definition append_child (child : string) (r : ExecutionRecord) : ExecutionRecord :=
  {| execution_id := execution_id r; kernel_name := kernel_name r;
     doc_path := doc_path r; start_time := start_time r; end_time := end_time r;
     status := status r; input_metadata := input_metadata r; output := output r;
     error := error r; context := context r; quantum_seal := quantum_seal r;
     parent_execution_id := parent_execution_id r;
     child_executions := (child_executions r ++ [child])%list;
     metrics := metrics r |}.

(** Assignment through a reference to the record stored under [k]. *)
Definition update_record (k : string) (f : ExecutionRecord -> ExecutionRecord)
  (d : list (string * ExecutionRecord)) : list (string * ExecutionRecord) :=
  match dict_get k d with
  | Some r => dict_set k (f r) d
  | None => d
  end.

(** [ExecutionRegistry.start_execution] *)
Definition start_execution (clock : StartClock) (kernel_name doc_path : string)
  (input_metadata context : option dict) (parent_execution_id : option string)
  (st : State) : string * State :=
  let '(execution_id, st1) := _generate_execution_id (id_timestamp clock) st in
  let record :=
    {| execution_id := execution_id; kernel_name := kernel_name;
       doc_path := doc_path; start_time := started_at clock; end_time := None;
       status := RUNNING; input_metadata := or_empty input_metadata;
       output := None; error := None; context := or_empty context;
       quantum_seal := None; parent_execution_id := parent_execution_id;
       child_executions := []; metrics := [] |} in
  let st2 :=
    match parent_execution_id with
    | Some p =>
        if negb (String.eqb p "") && dict_mem p (records (registry st1))
        then with_records (update_record p (append_child execution_id)) st1
        else st1
    | None => st1
    end in
  let st3 := with_records (dict_set execution_id record) st2 in
  (execution_id, _save_records (saved_at clock) st3).

(** The arguments and clock reads of one call of [start_execution]. *)
Record StartCall : Type := mkStartCall {
  call_clock : StartClock;
  call_kernel_name : string;
  call_doc_path : string;
  call_input_metadata : option dict;
  call_context : option dict;
  call_parent : option string
}.

(** A sequence of calls of [start_execution] on one registry; the ids are
    returned in the order of the calls. *)
Fixpoint start_executions (calls : list StartCall) (st : State)
  : list string * State :=
  match calls with
  | [] => ([], st)
  | c :: calls' =>
      let '(id, st1) :=
        start_execution (call_clock c) (call_kernel_name c) (call_doc_path c)
          (call_input_metadata c) (call_context c) (call_parent c) st in
      let '(ids, st2) := start_executions calls' st1 in
      (id :: ids, st2)
  end.

Section WithRuntime.
Context `{PyRuntime}.

(** [ExecutionRegistry._generate_quantum_seal]; [sealed_at] is the
    [time.time()] read inside it. *)
Definition _generate_quantum_seal (record : ExecutionRecord) (sealed_at : Q)
  : string :=
  sha256_hexdigest (json_dumps_sorted (JObj
    [ ("execution_id", JStr (execution_id record));
      ("kernel", JStr (kernel_name record));
      ("doc_path", JStr (doc_path record));
      ("start_time", JNum (start_time record));
      ("end_time", json_opt JNum (end_time record));
      ("input_hash", JStr (sha256_hexdigest
                             (json_dumps_sorted (JObj (input_metadata record)))));
      ("output_hash", JStr (sha256_hexdigest
                              (json_dumps_sorted (JObj (or_empty (output record))))));
      ("parent_id", json_opt JStr (parent_execution_id record));
      ("timestamp", JNum sealed_at) ])).

(** The assignments of [complete_execution] to the record. *)
Definition completed (out : dict) (mtr : option dict) (now sealed_at : Q)
  (r : ExecutionRecord) : ExecutionRecord :=
  let r' :=
    {| execution_id := execution_id r; kernel_name := kernel_name r;
       doc_path := doc_path r; start_time := start_time r; end_time := Some now;
       status := COMPLETED; input_metadata := input_metadata r;
       output := Some out; error := error r; context := context r;
       quantum_seal := quantum_seal r;
       parent_execution_id := parent_execution_id r;
       child_executions := child_executions r;
       metrics := or_empty mtr |} in
  {| execution_id := execution_id r'; kernel_name := kernel_name r';
     doc_path := doc_path r'; start_time := start_time r'; end_time := end_time r';
     status := status r'; input_metadata := input_metadata r';
     output := output r'; error := error r'; context := context r';
     quantum_seal := Some (_generate_quantum_seal r' sealed_at);
     parent_execution_id := parent_execution_id r';
     child_executions := child_executions r'; metrics := metrics r' |}.

(** [ExecutionRegistry.complete_execution]. The closing log line formats
    [record.duration] with [:.2f], which raises [TypeError] when the
    duration is [None]; the record is updated and saved by then. *)
Definition complete_execution (execution_id : string) (output : dict)
  (metrics : option dict) (now sealed_at : Q) (utcnow : string) (st : State)
  : outcome unit * State :=
  match dict_get execution_id (records (registry st)) with
  | None => (Ok tt, st)
  | Some record =>
      let record' := completed output metrics now sealed_at record in
      let st' := _save_records utcnow
                   (with_records (dict_set execution_id record') st) in
      match duration record' with
      | Some _ => (Ok tt, st')
      | None => (Raise TypeError, st')
      end
  end.

End WithRuntime.

(** The assignments of [fail_execution] to the record; [error] is
    [str(error)]. *)
Definition failed (err : string) (mtr : option dict) (now : Q)
  (r : ExecutionRecord) : ExecutionRecord :=
  {| execution_id := execution_id r; kernel_name := kernel_name r;
     doc_path := doc_path r; start_time := start_time r; end_time := Some now;
     status := FAILED; input_metadata := input_metadata r;
     output := output r; error := Some err; context := context r;
     quantum_seal := quantum_seal r;
     parent_execution_id := parent_execution_id r;
     child_executions := child_executions r;
     metrics := or_empty mtr |}.

(** [ExecutionRegistry.fail_execution] *)
Definition fail_execution (execution_id error : string) (metrics : option dict)
  (now : Q) (utcnow : string) (st : State) : State :=
  match dict_get execution_id (records (registry st)) with
  | None => st
  | Some record =>
      _save_records utcnow
        (with_records (dict_set execution_id (failed error metrics now record)) st)
  end.

Definition cancelled (now : Q) (r : ExecutionRecord) : ExecutionRecord :=
  {| execution_id := execution_id r; kernel_name := kernel_name r;
     doc_path := doc_path r; start_time := start_time r; end_time := Some now;
     status := CANCELLED; input_metadata := input_metadata r;
     output := output r; error := error r; context := context r;
     quantum_seal := quantum_seal r;
     parent_execution_id := parent_execution_id r;
     child_executions := child_executions r; metrics := metrics r |}.

(** [ExecutionRegistry.cancel_execution] *)
Definition cancel_execution (execution_id : string) (now : Q) (utcnow : string)
  (st : State) : State :=
  match dict_get execution_id (records (registry st)) with
  | None => st
  | Some record =>
      match status record with
      | PENDING | RUNNING =>
          _save_records utcnow
            (with_records (dict_set execution_id (cancelled now record)) st)
      | _ => st
      end
  end.

(** [ExecutionRegistry.get_execution] *)
Definition get_execution (execution_id : string) (st : State)
  : option ExecutionRecord :=
  dict_get execution_id (records (registry st)).

(** The distinct strings of a list, as [len({...})] counts them. *)
Definition count_distinct (l : list string) : nat :=
  size (list_to_set l : gset string).

Definition Qsum (l : list Q) : Q := fold_left Qplus l 0%Q.
Definition Qmin_list (l : list Q) : Q :=
  match l with [] => 0%Q | x :: l' => fold_left Braid.py_min l' x end.
Definition Qmax_list (l : list Q) : Q :=
  match l with [] => 0%Q | x :: l' => fold_left Braid.py_max l' x end.
Definition JInt (n : nat) : json := JNum (inject_Z (Z.of_nat n)).

(** [ExecutionRegistry.get_execution_stats] *)
Definition get_execution_stats (st : State) : dict :=
  let rs := dict_values (records (registry st)) in
  match rs with
  | [] => []
  | _ =>
      let having s := List.filter (fun r => status_eqb (status r) s) rs in
      let completed := having COMPLETED in
      let durations := omap duration completed in
      let n := length durations in
      [ ("total", JInt (length rs));
        ("completed", JInt (length completed));
        ("failed", JInt (length (having FAILED)));
        ("running", JInt (length (having RUNNING)));
        ("pending", JInt (length (having PENDING)));
        ("avg_duration",
          JNum (match durations with
                | [] => 0
                | _ => Qsum durations / inject_Z (Z.of_nat n)
                end)%Q);
        ("min_duration", JNum (Qmin_list durations));
        ("max_duration", JNum (Qmax_list durations));
        ("kernels_used", JInt (count_distinct (map kernel_name rs)));
        ("documents_processed", JInt (count_distinct (map doc_path rs))) ]
  end.

(** *** Auxiliary definitions for the properties of the ids *)

(** The lower-case hexadecimal digits, the characters of [f"{n:x}"]. *)
Definition is_lower_hex (c : ascii) : bool :=
  existsb (Ascii.eqb c)
    ["0"; "1"; "2"; "3"; "4"; "5"; "6"; "7"; "8"; "9"; "a"; "b"; "c"; "d"; "e"; "f"]%char.

Definition digit_of (c : ascii) : N :=
  match HexString.ascii_to_digit c with Some d => d | None => 0%N end.

(** The id generated at timestamp [ts] with the counter at [n]. *)
Definition id_of (ts : Z) (n : N) : string :=
  "ex-" ++ format_x_Z ts ++ "-" ++ format_x n.

(** The ids a sequence of calls generates from counter [n] on. *)
Fixpoint ids_from (n : N) (calls : list StartCall) : list string :=
  match calls with
  | [] => []
  | c :: calls' =>
      id_of (id_timestamp (call_clock c)) n :: ids_from (n + 1) calls'
  end.

(** *** The execution trace *)

(** The loop [while current.parent_execution_id and
    current.parent_execution_id in self.records] of [get_execution_trace],
    unrolled [fuel] times; [None] when it is still running after that. *)
Fixpoint find_root (fuel : nat) (recs : list (string * ExecutionRecord))
  (current : ExecutionRecord) {struct fuel} : option ExecutionRecord :=
  match parent_execution_id current with
  | None => Some current
  | Some p =>
      if String.eqb p "" then Some current
      else
        match dict_get p recs with
        | None => Some current
        | Some parent =>
            match fuel with
            | O => None
            | S fuel' => find_root fuel' recs parent
            end
        end
  end.

(** The loop [while stack] of [get_execution_trace], unrolled [fuel] times.
    The top of the Python stack is the head of [stack]: an unprocessed node
    is replaced by itself, marked processed, on top of those of its children
    that are in the registry, the first child uppermost. *)
Fixpoint traverse (fuel : nat) (recs : list (string * ExecutionRecord))
  (stack : list (ExecutionRecord * bool)) (trace : list ExecutionRecord)
  {struct fuel} : option (list ExecutionRecord) :=
  match stack with
  | [] => Some trace
  | (node, processed) :: stack' =>
      match fuel with
      | O => None
      | S fuel' =>
          if processed : bool then traverse fuel' recs stack' (trace ++ [node])%list
          else
            traverse fuel' recs
              ((node, true)
               :: (map (fun r => (r, false))
                     (omap (fun child_id => dict_get child_id recs)
                           (child_executions node))
                   ++ stack')%list)
              trace
      end
  end.

(** [ExecutionRegistry.get_execution_trace], each of its two loops
    unrolled at most [fuel] times. *)
Definition get_execution_trace (fuel : nat) (execution_id : string) (st : State)
  : option (list ExecutionRecord) :=
  let recs := records (registry st) in
  match dict_get execution_id recs with
  | None => Some []
  | Some current =>
      match find_root fuel recs current with
      | None => None
      | Some root => traverse fuel recs [(root, false)] []
      end
  end.

(** A record without a parent in the registry: the walk to the root
    stops at it. *)
Definition is_root (recs : list (string * ExecutionRecord)) (r : ExecutionRecord)
  : Prop :=
  match parent_execution_id r with
  | None => True
  | Some p => p = "" \/ dict_get p recs = None
  end.

(** *** The effect of [start_execution] on the records *)

(** The records of the registry before the new record is stored: those of
    [st], the parent's list of children extended when the parent is known. *)
Definition with_child (parent : option string) (child : string)
  (recs : list (string * ExecutionRecord)) : list (string * ExecutionRecord) :=
  match parent with
  | Some p =>
      if negb (String.eqb p "") && dict_mem p recs
      then update_record p (append_child child) recs
      else recs
  | None => recs
  end.

(** The record that [start_execution] stores. *)
Definition started (clock : StartClock) (id kernel_name doc_path : string)
  (input_metadata context : option dict) (parent : option string)
  : ExecutionRecord :=
  {| execution_id := id; kernel_name := kernel_name; doc_path := doc_path;
     start_time := started_at clock; end_time := None; status := RUNNING;
     input_metadata := or_empty input_metadata; output := None; error := None;
     context := or_empty context; quantum_seal := None;
     parent_execution_id := parent; child_executions := []; metrics := [] |}.

(** *** Registries as the operations make them *)


(** Every id of the registry whose last segment reads as a number reads as
    a number below the counter. *)
Definition ids_below_counter (reg : ExecutionRegistry) : Prop :=
  forall (id : string) (r : ExecutionRecord) (n : N),
    dict_get id (records reg) = Some r ->
    int16 (last_segment id) = Some n ->
    (n < _next_execution_id reg)%N.

(** *** Relations between the states before and after an operation *)

(** [st'] differs from [st] at most in the record stored under [id] and in
    the file: the ids, their order, all other records, the storage path and
    the counter are the same. *)
Definition only_changes (id : string) (st st' : State) : Prop :=
  (forall id' : string,
      id' <> id ->
      dict_get id' (records (registry st')) = dict_get id' (records (registry st)))
  /\ dict_keys (records (registry st')) = dict_keys (records (registry st))
  /\ storage_path (registry st') = storage_path (registry st)
  /\ _next_execution_id (registry st') = _next_execution_id (registry st).


(** *** Files the typed records can hold *)

(** An element of the file's list of records that [_load_records] treats
    here as it does in Python. What is no dict, and a dict on which
    [from_dict] raises, is skipped by both. A dict that [from_dict] accepts
    must hold, under every field, a value of the shape [to_dict] writes (a
    dataclass would store any other value too, and later operations on such
    a record can raise), and the last segment of its id must be made of
    hexadecimal digits, as that of a generated id is ([int] also reads signs,
    a [0x] prefix and underscores, [int16] does not). *)
Definition read_as_stored (record_data : json) : Prop :=
  match record_data with
  | JObj data =>
      match from_dict data with
      | Loaded r => int16 (last_segment (execution_id r)) <> None
      | Raised _ => True
      | Untyped => False
      end
  | _ => True
  end.

(** A file all of whose records are read as stored. A missing file, a file
    that is not JSON and one without a list under ["records"] load
    nothing. *)
Definition typed_file (content : option file_content) : Prop :=
  match content with
  | Some (Json (JObj data)) =>
      match dict_get "records" data with
      | Some (JArr l) => Forall read_as_stored l
      | _ => True
      end
  | _ => True
  end.

Section Reachability.
Context `{PyRuntime}.

(** The states of a registry: constructed over a file that the typed
    records can hold, then driven by the operations with any arguments. *)
Inductive Reachable : State -> Prop :=
| reach_init (storage_path : option string) (disk : option file_content) :
    typed_file disk ->
    Reachable (ExecutionRegistry_init storage_path disk)
| reach_start (st : State) (clock : StartClock) (kernel_name doc_path : string)
    (input_metadata context : option dict) (parent : option string) :
    Reachable st ->
    Reachable (snd (start_execution clock kernel_name doc_path input_metadata
                      context parent st))
| reach_complete (st : State) (id : string) (out : dict) (mtr : option dict)
    (now sealed_at : Q) (utcnow : string) :
    Reachable st ->
    Reachable (snd (complete_execution id out mtr now sealed_at utcnow st))
| reach_fail (st : State) (id err : string) (mtr : option dict) (now : Q)
    (utcnow : string) :
    Reachable st -> Reachable (fail_execution id err mtr now utcnow st)
| reach_cancel (st : State) (id : string) (now : Q) (utcnow : string) :
    Reachable st -> Reachable (cancel_execution id now utcnow st).

End Reachability.

End Registry.

(** ** netsync_scrollchain.py *)

Module NetSync.

(** [class ScrollChainSync]: the two paths. They name different files. *)
Record ScrollChainSync : Type := mkSync {
  registry_path : string;
  scrollchain_path : string
}.

(** The two files, as [json.load] reads them; [None] is a file that does
    not exist. *)
Record FileSystem : Type := mkFS {
  registry_file : option file_content;
  scrollchain_file : option file_content
}.

(** The message of the returned pair, without its wording. *)
Inductive message : Type :=
| HashFailed
| AlreadySynchronized (timestamp : json)
| Synchronized (timestamp : string)
| VerificationFailed
| SynchronizationFailed (e : exn).

(** The generator [e for e in entries if e.get('registry_hash') == h],
    advanced to its first element: an element that is no dict has no [get]. *)
Fixpoint first_entry_with (registry_hash : string) (entries : list json)
  : outcome (option dict) :=
  match entries with
  | [] => Ok None
  | JObj e :: entries' =>
      match dict_get "registry_hash" e with
      | Some (JStr h) =>
          if String.eqb h registry_hash then Ok (Some e)
          else first_entry_with registry_hash entries'
      | _ => first_entry_with registry_hash entries'
      end
  | _ :: _ => Raise AttributeError
  end.

(** The same over [scrollchain.get('entries', [])], whatever JSON value is
    stored there: a list is walked, an empty string or dict yields nothing,
    a non-empty one yields a string first, other values are not iterable. *)
Definition existing_entry (registry_hash : string) (scrollchain : dict)
  : outcome (option dict) :=
  match dict_get "entries" scrollchain with
  | None => Ok None
  | Some (JArr entries) => first_entry_with registry_hash entries
  | Some (JStr EmptyString) => Ok None
  | Some (JObj []) => Ok None
  | Some (JStr _) => Raise AttributeError
  | Some (JObj _) => Raise AttributeError
  | Some _ => Raise TypeError
  end.

(** [scrollchain['entries'].append(sync_entry)], after the key was added
    if it was missing. *)
Definition append_entry (sync_entry : json) (scrollchain : dict) : outcome dict :=
  match dict_get "entries" scrollchain with
  | None => Ok (dict_set "entries" (JArr [sync_entry]) scrollchain)
  | Some (JArr entries) =>
      Ok (dict_set "entries" (JArr (entries ++ [sync_entry])%list) scrollchain)
  | Some _ => Raise AttributeError
  end.

Definition write_scrollchain (scrollchain : dict) (fs : FileSystem) : FileSystem :=
  {| registry_file := registry_file fs;
     scrollchain_file := Some (Json (JObj scrollchain)) |}.

Section WithRuntime.
Context `{PyRuntime}.

(** [ScrollChainSync._compute_registry_hash]: the empty string when the
    file is missing or is not JSON. *)
Definition _compute_registry_hash (self : ScrollChainSync) (fs : FileSystem)
  : string :=
  match registry_file fs with
  | Some (Json registry_data) =>
      sha3_256_hexdigest (json_dumps_sorted registry_data)
  | _ => ""
  end.

(** [ScrollChainSync.verify_sync]: every exception gives [False]. *)
Definition verify_sync (self : ScrollChainSync) (fs : FileSystem) : bool :=
  let registry_hash := _compute_registry_hash self fs in
  if String.eqb registry_hash "" then false
  else
    match scrollchain_file fs with
    | Some (Json (JObj scrollchain)) =>
        match existing_entry registry_hash scrollchain with
        | Ok (Some _) => true
        | _ => false
        end
    | _ => false
    end.

(** The end of [sync_registry]: the result after the log was written. *)
Definition verified (self : ScrollChainSync) (utcnow : string) (fs : FileSystem)
  : (bool * message) * FileSystem :=
  if verify_sync self fs then ((true, Synchronized utcnow), fs)
  else ((false, VerificationFailed), fs).

(** [ScrollChainSync.sync_registry]; [utcnow] is
    [datetime.utcnow().isoformat()]. Every exception inside is caught and
    reported as a failure; the log is written only after the last statement
    that can raise. *)
Definition sync_registry (self : ScrollChainSync) (utcnow : string) (force : bool)
  (fs : FileSystem) : (bool * message) * FileSystem :=
  let registry_hash := _compute_registry_hash self fs in
  if String.eqb registry_hash "" then ((false, HashFailed), fs)
  else
    let sync_entry :=
      [ ("registry_hash", JStr registry_hash);
        ("timestamp", JStr utcnow);
        ("registry_path", JStr (abspath (registry_path self))) ] in
    match scrollchain_file fs with
    | None =>
        verified self utcnow
          (write_scrollchain [ ("version", JStr "1.0");
                               ("created_at", JStr utcnow);
                               ("entries", JArr [JObj sync_entry]) ] fs)
    | Some content =>
        let scrollchain :=
          match content with
          | Json (JObj d) => d
          | _ => [ ("version", JStr "1.0"); ("entries", JArr []) ]
          end in
        match existing_entry registry_hash scrollchain with
        | Raise e => ((false, SynchronizationFailed e), fs)
        | Ok found =>
            match found, force with
            | Some ((_ :: _) as entry), false =>
                match dict_get "timestamp" entry with
                | Some t => ((true, AlreadySynchronized t), fs)
                | None => ((false, SynchronizationFailed KeyError), fs)
                end
            | _, _ =>
                match append_entry (JObj sync_entry) scrollchain with
                | Raise e => ((false, SynchronizationFailed e), fs)
                | Ok scrollchain' =>
                    verified self utcnow (write_scrollchain scrollchain' fs)
                end
            end
        end
    end.

End WithRuntime.

(** The entries of a log. *)
Definition entries_of (scrollchain : dict) : list json :=
  match dict_get "entries" scrollchain with
  | Some (JArr entries) => entries
  | _ => []
  end.

(** The entries of the log file, none when the file is missing or holds
    something else than a log. *)
Definition log_entries (fs : FileSystem) : list json :=
  match scrollchain_file fs with
  | Some (Json (JObj scrollchain)) => entries_of scrollchain
  | _ => []
  end.

(** *** The latest entry *)

(** The sort key [x.get('timestamp', '')] of an entry that is a dict. *)
Definition timestamp_of (e : dict) : json :=
  default (JStr "") (dict_get "timestamp" e).

(** The keys of all entries, computed before anything is compared: an
    entry that is no dict has no [get]. *)
Fixpoint keyed (entries : list json) : outcome (list (json * json)) :=
  match entries with
  | [] => Ok []
  | JObj e :: entries' =>
      match keyed entries' with
      | Ok ks => Ok ((timestamp_of e, JObj e) :: ks)
      | Raise x => Raise x
      end
  | _ :: _ => Raise AttributeError
  end.

Definition string_key (kx : json * json) : option (string * json) :=
  match fst kx with
  | JStr s => Some (s, snd kx)
  | _ => None
  end.

(** [sorted(..., reverse=True)] on string keys: a stable sort, largest key
    first, equal keys in their order. Python compares strings by code point,
    which on UTF-8 is the order of the bytes. *)
Fixpoint insert_latest (x : string * json) (l : list (string * json))
  : list (string * json) :=
  match l with
  | [] => [x]
  | y :: l' => if String.leb (fst y) (fst x) then x :: y :: l'
               else y :: insert_latest x l'
  end.
Definition sorted_latest (l : list (string * json)) : list (string * json) :=
  foldr insert_latest [] l.

(** What [get_latest_sync] does: it returns an entry or [None], raises, or
    compares timestamps that are not all strings, which this model does not
    follow (numbers are ordered, most other values raise [TypeError]). *)
Inductive latest : Type :=
| Latest (entry : option json)
| LatestRaises (e : exn)
| LatestNotModelled.

(** [ScrollChainSync.get_latest_sync]. Only a missing file and a file that
    is not JSON are caught. A single entry is returned without any
    comparison. *)
Definition get_latest_sync (self : ScrollChainSync) (fs : FileSystem) : latest :=
  match scrollchain_file fs with
  | None | Some NotJson => Latest None
  | Some (Json (JObj scrollchain)) =>
      match dict_get "entries" scrollchain with
      | None | Some (JArr []) | Some JNull | Some (JBool false)
      | Some (JStr EmptyString) | Some (JObj []) => Latest None
      | Some (JNum q) => if Qeq_bool q 0 then Latest None else LatestRaises TypeError
      | Some (JBool true) => LatestRaises TypeError
      | Some (JStr _) | Some (JObj _) => LatestRaises AttributeError
      | Some (JArr entries) =>
          match keyed entries with
          | Raise x => LatestRaises x
          | Ok [] => Latest None
          | Ok [(_, entry)] => Latest (Some entry)
          | Ok ks =>
              match mapM string_key ks with
              | Some sks => Latest (snd <$> head (sorted_latest sks))
              | None => LatestNotModelled
              end
          end
      end
  | Some (Json _) => LatestRaises AttributeError
  end.

(** The entry that [sync_registry] appends. *)
Section SyncEntry.
Context `{PyRuntime}.

Definition sync_entry (self : ScrollChainSync) (utcnow : string) (fs : FileSystem)
  : json :=
  JObj [ ("registry_hash", JStr (_compute_registry_hash self fs));
         ("timestamp", JStr utcnow);
         ("registry_path", JStr (abspath (registry_path self))) ].

End SyncEntry.

(** *** Files by path *)

(** The files of the machine under their paths. A path is taken as the
    name of its file: two different strings name two different files, one
    string names one file. So a [ScrollChainSync] whose two paths are the
    same string reads its log from, and writes it to, the registry file. *)
Definition Disk : Type := gmap string file_content.

(** The two files a [ScrollChainSync] opens. *)
Definition files_of (self : ScrollChainSync) (d : Disk) : FileSystem :=
  {| registry_file := d !! registry_path self;
     scrollchain_file := d !! scrollchain_path self |}.

(** [json.dump(scrollchain, f)] on the file at [scrollchain_path]. *)
Definition write_log (self : ScrollChainSync) (scrollchain : dict) (d : Disk)
  : Disk :=
  <[scrollchain_path self := Json (JObj scrollchain)]> d.

Section OnDisk.
Context `{PyRuntime}.

(** [ScrollChainSync.verify_sync], each of the two paths opened on the
    disk as it is at the time of the call. *)
Definition verify_sync_on (self : ScrollChainSync) (d : Disk) : bool :=
  verify_sync self (files_of self d).

(** The end of [sync_registry], after the log was written. *)
Definition verified_on (self : ScrollChainSync) (utcnow : string) (d : Disk)
  : (bool * message) * Disk :=
  if verify_sync_on self d then ((true, Synchronized utcnow), d)
  else ((false, VerificationFailed), d).

(** [ScrollChainSync.sync_registry] on the disk: the hash is taken of the
    file at [registry_path] before the log is opened, the log is read from
    and written to the file at [scrollchain_path], and the verification
    opens both paths again. *)
Definition sync_registry_on (self : ScrollChainSync) (utcnow : string)
  (force : bool) (d : Disk) : (bool * message) * Disk :=
  let registry_hash := _compute_registry_hash self (files_of self d) in
  if String.eqb registry_hash "" then ((false, HashFailed), d)
  else
    let sync_entry :=
      [ ("registry_hash", JStr registry_hash);
        ("timestamp", JStr utcnow);
        ("registry_path", JStr (abspath (registry_path self))) ] in
    match d !! scrollchain_path self with
    | None =>
        verified_on self utcnow
          (write_log self [ ("version", JStr "1.0");
                            ("created_at", JStr utcnow);
                            ("entries", JArr [JObj sync_entry]) ] d)
    | Some content =>
        let scrollchain :=
          match content with
          | Json (JObj sc) => sc
          | _ => [ ("version", JStr "1.0"); ("entries", JArr []) ]
          end in
        match existing_entry registry_hash scrollchain with
        | Raise e => ((false, SynchronizationFailed e), d)
        | Ok found =>
            match found, force with
            | Some ((_ :: _) as entry), false =>
                match dict_get "timestamp" entry with
                | Some t => ((true, AlreadySynchronized t), d)
                | None => ((false, SynchronizationFailed KeyError), d)
                end
            | _, _ =>
                match append_entry (JObj sync_entry) scrollchain with
                | Raise e => ((false, SynchronizationFailed e), d)
                | Ok scrollchain' =>
                    verified_on self utcnow (write_log self scrollchain' d)
                end
            end
        end
    end.

End OnDisk.


End NetSync.

(** ** Example inputs *)

(** A runtime to evaluate the model on examples. Its digests are stand-ins
    (the identity, and a one-letter prefix); no theorem depends on them. *)
Definition sample_runtime : PyRuntime :=
  {| sha256_hexdigest := fun s => s;
     sha3_256_hexdigest := fun s => "h" ++ s;
     json_dumps_sorted := fun _ => "";
     str_of := fun v => match v with JStr s => s | _ => "" end;
     path_stem := fun p => p;
     str_lower := fun s => s;
     abspath := fun p => p |}.

(** A runtime whose serialization tells a log from the log with one entry
    more: it writes the number of entries in unary. *)
Definition counting_runtime : PyRuntime :=
  {| sha256_hexdigest := fun s => s;
     sha3_256_hexdigest := fun s => "h" ++ s;
     json_dumps_sorted := fun v =>
       match v with
       | JObj d =>
           match dict_get "entries" d with
           | Some (JArr l) => String.concat "" (map (fun _ => "x") l)
           | _ => ""
           end
       | _ => ""
       end;
     str_of := fun v => match v with JStr s => s | _ => "" end;
     path_stem := fun p => p;
     str_lower := fun s => s;
     abspath := fun p => p |}.

Module BraidExamples.
Import Braid.
Local Open Scope braid_scope.
Local Existing Instance sample_runtime.

(** Two documents, the first carrying a tag in its metadata. *)
Definition two_docs : World :=
  snd ((add_document "a" "docs/a.md" (Some [("tags", JArr [JStr "alpha"])]) ;;;
        add_document "b" "docs/b.md" None) create_semantic_braid).

(** A source with three outgoing edges, the last of which leads on to the
    target: a -> b1, a -> b2, a -> b3, b3 -> d, all of the directional type
    "references". *)
Definition fan : World :=
  snd ((add_document "a" "a.md" None ;;;
        add_document "b1" "b1.md" None ;;;
        add_document "b2" "b2.md" None ;;;
        add_document "b3" "b3.md" None ;;;
        add_document "d" "d.md" None ;;;
        link_documents 100 "a" "b1" "references" 1 None ;;;
        link_documents 100 "a" "b2" "references" 1 None ;;;
        link_documents 100 "a" "b3" "references" 1 None ;;;
        link_documents 100 "b3" "d" "references" 1 None) create_semantic_braid).

(** [p] follows outgoing links of the store from node to node. *)
Fixpoint is_path (objs : gmap loc DocumentNode) (p : list loc) : bool :=
  match p with
  | [] => false
  | [_] => true
  | x :: (y :: _) as p' =>
      existsb (fun link => Pos.eqb (target link) y) (links_of objs x)
      && is_path objs p'
  end.

(** What holds of every queue entry (node, path): the path leads from the
    source to the node along links and has at most [k] nodes. *)
Definition good_entry (objs : gmap loc DocumentNode) (s : loc) (k : nat)
  (e : loc * list loc) : Prop :=
  hd_error (snd e) = Some s /\ last (snd e) = Some (fst e)
  /\ is_path objs (snd e) = true /\ (length (snd e) <= k)%nat.

End BraidExamples.

Module RegistryExamples.
Import Registry.
Local Existing Instance sample_runtime.

Definition clock0 : StartClock :=
  {| id_timestamp := 1700000000000; started_at := 1700000000;
     saved_at := "2023-11-14T22:13:20" |}.

(** A registry backed by a file that does not exist yet. *)
Definition fresh_registry : State :=
  ExecutionRegistry_init (Some "registry.json") None.

(** One execution started on it. *)
Definition one_running : string * State :=
  start_execution clock0 "note_kernel" "docs/a.md" None None None fresh_registry.

(** ... and failed. *)
Definition one_failed : State :=
  fail_execution (fst one_running) "boom" None 1700000001
    "2023-11-14T22:13:21" (snd one_running).

(** Sixteen executions started within one millisecond. *)
Definition sixteen_calls : list StartCall :=
  repeat {| call_clock := clock0; call_kernel_name := "note_kernel";
            call_doc_path := "docs/a.md"; call_input_metadata := None;
            call_context := None; call_parent := None |} 16.

(** An execution with two child executions, all three running. *)
Definition family : State :=
  let child1 :=
    start_execution clock0 "child_kernel" "docs/a.md" None None
      (Some (fst one_running)) (snd one_running) in
  snd (start_execution clock0 "child_kernel" "docs/b.md" None None
         (Some (fst one_running)) (snd child1)).

(** ... of which the first child then failed and the second was
    cancelled. *)
Definition family_settled : State :=
  cancel_execution "ex-18bcfe56800-3" 1700000002 "2023-11-14T22:13:22"
    (fail_execution "ex-18bcfe56800-2" "boom" None 1700000001
       "2023-11-14T22:13:21" family).

(** A file written by hand, with one record: its dictionary has no key
    ["duration"], and its id ends in the counter value ten. *)
Definition stored_file : file_content :=
  Json (JObj
    [ ("version", JStr "1.0");
      ("records", JArr
         [ JObj [ ("execution_id", JStr "ex-18bcfe00000-a");
                  ("kernel_name", JStr "note_kernel");
                  ("doc_path", JStr "docs/a.md");
                  ("start_time", JNum 1699999000);
                  ("status", JStr "COMPLETED") ] ]) ]).

(** The registry constructed over it. *)
Definition reloaded_registry : State :=
  ExecutionRegistry_init (Some "registry.json") (Some stored_file).

End RegistryExamples.

Module NetSyncExamples.
Import NetSync.
Local Existing Instance sample_runtime.

Definition default_sync : ScrollChainSync :=
  {| registry_path := "vault/kernel_registry.json";
     scrollchain_path := "scrollchain/ledger_sync.json" |}.

(** A ledger file and no log yet. *)
Definition unsynced : FileSystem :=
  {| registry_file := Some (Json (JObj [("kernels", JArr [])]));
     scrollchain_file := None |}.

(** The same after one synchronization. *)
Definition synced : FileSystem :=
  snd (sync_registry default_sync "2023-11-14T22:00:00" false unsynced).

(** No ledger file at all. *)
Definition no_ledger : FileSystem :=
  {| registry_file := None; scrollchain_file := None |}.

(** [synced] after a forced synchronization on the next morning: the log
    has two entries. *)
Definition resynced : FileSystem :=
  snd (sync_registry default_sync "2023-11-15T08:00:00" true synced).

(** A disk with the ledger file alone. *)
Definition ledger_only : Disk :=
  {[ "vault/kernel_registry.json" := Json (JObj [("kernels", JArr [])]) ]}.

(** A synchronizer that was given the path of the ledger for its log. *)
Definition aliased_sync : ScrollChainSync :=
  {| registry_path := "vault/kernel_registry.json";
     scrollchain_path := "vault/kernel_registry.json" |}.

End NetSyncExamples.

(** ** Properties of dictionaries *)

Section DictFacts.

Lemma dict_get_set_eq {V : Type} (k : string) (v : V) (d : list (string * V)) :
  dict_get k (dict_set k v d) = Some v.
Proof.
  induction d as [|[k' v'] d IH]; simpl.
  - rewrite String.eqb_refl. reflexivity.
  - destruct (String.eqb k k') eqn:E; simpl; rewrite ?E, ?String.eqb_refl; auto.
Qed.

Lemma dict_get_set_ne {V : Type} (k k' : string) (v : V) (d : list (string * V)) :
  k <> k' -> dict_get k' (dict_set k v d) = dict_get k' d.
Proof.
  intros Hne. induction d as [|[k0 v0] d IH]; simpl.
  - destruct (String.eqb k' k) eqn:E; [apply String.eqb_eq in E; congruence | reflexivity].
  - destruct (String.eqb k k0) eqn:E; simpl.
    + apply String.eqb_eq in E. subst k0.
      destruct (String.eqb k' k) eqn:E'; [apply String.eqb_eq in E'; congruence | reflexivity].
    + rewrite IH. reflexivity.
Qed.

End DictFacts.

(** ** Properties of the relationship graph *)

Section BraidFacts.
Import Braid.
Local Open Scope braid_scope.
Context `{PyRuntime}.

Lemma py_clamp_spec (w : Q) :
  (py_max 0 (py_min 1 w) == Qmax 0 (Qmin 1 w))%Q
  /\ (0 <= py_max 0 (py_min 1 w))%Q /\ (py_max 0 (py_min 1 w) <= 1)%Q.
Proof.
  unfold py_max, py_min.
  destruct (Qle_bool 1 w) eqn:H1.
  - apply Qle_bool_iff in H1.
    rewrite (Q.min_l 1 w H1).
    replace (Qle_bool 1 0) with false by reflexivity.
    rewrite Q.max_r by (compute; discriminate).
    repeat split; try reflexivity; compute; discriminate.
  - assert (Hw : (w < 1)%Q).
    { apply Qnot_le_lt. intros C. apply Qle_bool_iff in C. congruence. }
    rewrite (Q.min_r 1 w (Qlt_le_weak _ _ Hw)).
    destruct (Qle_bool w 0) eqn:H0.
    + apply Qle_bool_iff in H0.
      rewrite (Q.max_l 0 w H0).
      repeat split; try reflexivity; compute; discriminate.
    + assert (Hp : (0 < w)%Q).
      { apply Qnot_le_lt. intros C. apply Qle_bool_iff in C. congruence. }
      rewrite (Q.max_r 0 w (Qlt_le_weak _ _ Hp)).
      repeat split; try reflexivity; apply Qlt_le_weak; assumption.
Qed.

(** The constructor of a symmetric link never returns: at every recursion
    depth it raises [RecursionError] and leaves the store as it was. *)
Lemma DocumentLink_init_symmetric (depth : nat) :
  forall (s t : loc) (ty : string) (wt : Q) (md : option dict) (w : World),
    is_symmetric ty = true ->
    DocumentLink_init depth s t ty wt md w = (Raise RecursionError, w).
Proof.
  induction depth as [|depth IH]; intros s t ty wt md w Hsym.
  - reflexivity.
  - simpl. rewrite Hsym. unfold bind at 1. rewrite (IH t s ty wt md w Hsym).
    reflexivity.
Qed.

(** A directional link is constructed as soon as one frame is left. *)
Lemma DocumentLink_init_directional (depth : nat) (s t : loc) (ty : string)
  (wt : Q) (md : option dict) (w : World) :
  is_symmetric ty = false ->
  DocumentLink_init (S depth) s t ty wt md w
  = (Ok {| source := s; target := t; link_type := ty;
           weight := py_max 0 (py_min 1 wt); metadata := or_empty md |}, w).
Proof. intros Hdir. simpl. rewrite Hdir. reflexivity. Qed.

(** The loop never stops for want of fuel: with at least [max_hops + 1]
    iterations available it is [max_hops] that ends it. *)
Lemma bfs_loop_fuel (fuel : nat) :
  forall (objs : gmap loc DocumentNode) (t : loc) (visited : gset loc)
         (queue : list (loc * list loc)) (max_hops : Z),
    (Z.to_nat (max_hops + 1) <= fuel)%nat ->
    bfs_loop fuel objs t visited queue max_hops
    = bfs_loop (Z.to_nat (max_hops + 1)) objs t visited queue max_hops.
Proof.
  induction fuel as [|fuel IH]; intros objs t visited queue max_hops Hfuel.
  - replace (Z.to_nat (max_hops + 1)) with O by lia. reflexivity.
  - destruct (Z.ltb_spec max_hops 0) as [Hneg | Hpos].
    + replace (Z.to_nat (max_hops + 1)) with O by lia. simpl.
      destruct queue as [|[current path] queue]; [reflexivity |].
      destruct (Z.ltb_spec max_hops 0); [reflexivity | lia].
    + replace (Z.to_nat (max_hops + 1)) with (S (Z.to_nat (max_hops - 1 + 1)))
        by lia.
      simpl. destruct queue as [|[current path] queue]; [reflexivity |].
      destruct (Z.ltb_spec max_hops 0); [reflexivity |].
      destruct (scan_links t path (links_of objs current) visited queue);
        [reflexivity |].
      apply IH. lia.
Qed.

(** One iteration of the loop: one node leaves the queue and the budget
    drops by one. *)
Lemma bfs_loop_step (fuel : nat) (objs : gmap loc DocumentNode) (t : loc)
  (visited : gset loc) (current : loc) (path : list loc)
  (queue : list (loc * list loc)) (max_hops : Z) :
  (0 <= max_hops)%Z ->
  bfs_loop (S fuel) objs t visited ((current, path) :: queue) max_hops
  = match scan_links t path (links_of objs current) visited queue with
    | Found p => Some p
    | Continue visited' queue' => bfs_loop fuel objs t visited' queue' (max_hops - 1)
    end.
Proof.
  intros Hpos. simpl. destruct (Z.ltb_spec max_hops 0); [lia | reflexivity].
Qed.

(** C7. The weight stored by [DocumentLink.__init__] is [max(0, min(1, w))]
    and lies in [0, 1], for every supplied weight [w]: whenever the
    constructor returns a link its weight is the clamped one, and the only
    way it does not return is [RecursionError], with no frame left or on a
    symmetric link type. *)
Theorem link_weight_clamped :
  forall (depth : nat) (s t : loc) (ty : string) (wt : Q) (md : option dict)
         (w : World),
    match fst (DocumentLink_init depth s t ty wt md w) with
    | Ok link =>
        (weight link == Qmax 0 (Qmin 1 wt))%Q
        /\ (0 <= weight link)%Q /\ (weight link <= 1)%Q
    | Raise e =>
        e = RecursionError /\ (depth = O \/ is_symmetric ty = true)
    end.
Proof.
  intros depth s t ty wt md w.
  destruct (is_symmetric ty) eqn:Hsym.
  - rewrite DocumentLink_init_symmetric by assumption. simpl. auto.
  - destruct depth as [|depth].
    + simpl. auto.
    + rewrite DocumentLink_init_directional by assumption. simpl.
      apply py_clamp_spec.
Qed.

(** C1. Creating an edge of a symmetric type between two existing nodes
    does not terminate normally: the constructor of the reverse edge is
    entered again for its own reverse, and so on until the recursion limit.
    [link_documents] raises [RecursionError] whatever the limit, and no
    node's list of links changes: neither the edge nor a reverse edge is
    created. *)
Theorem symmetric_link_recurses :
  forall (depth : nat) (w : World) (source_id target_id : string) (s t : loc)
         (ty : string) (wt : Q) (md : option dict),
    nodes (braid w) !! source_id = Some s ->
    nodes (braid w) !! target_id = Some t ->
    is_symmetric ty = true ->
    exists w',
      link_documents depth source_id target_id ty wt md w
      = (Raise RecursionError, w')
      /\ objects w' = objects w.
Proof.
  intros depth w source_id target_id s t ty wt md Hs Ht Hsym.
  unfold link_documents, get_document, get_world, bind, ret. simpl.
  rewrite Hs, Ht. unfold modify_braid, add_link, bind.
  rewrite DocumentLink_init_symmetric by assumption.
  eexists. split; reflexivity.
Qed.

(** C4. [add_document] indexes no tag: the new node's tag set is empty
    whatever the metadata holds, so a tag lookup answers after the insertion
    what it answered before. *)
Theorem add_document_indexes_no_tag :
  forall (w : World) (doc_id doc_path : string) (md : option dict) (tag : string),
    tags (DocumentNode_init doc_id doc_path md) = ∅
    /\ tag_index (braid (snd (add_document doc_id doc_path md w)))
       = tag_index (braid w)
    /\ fst (find_documents_by_tag tag (snd (add_document doc_id doc_path md w)))
       = fst (find_documents_by_tag tag w).
Proof.
  intros w doc_id doc_path md tag.
  assert (Hidx : tag_index (braid (snd (add_document doc_id doc_path md w)))
                 = tag_index (braid w)).
  { unfold add_document, get_world, put_world, bind, ret. simpl.
    rewrite elements_empty. reflexivity. }
  split; [reflexivity | split; [exact Hidx |]].
  unfold find_documents_by_tag, get_world, bind, ret. cbn [fst].
  rewrite Hidx. reflexivity.
Qed.

(** C9. [find_related_documents] on an id that is not in the graph returns
    the empty list, raises nothing and leaves the graph as it was. *)
Theorem find_related_unknown_id :
  forall (w : World) (doc_id : string) (link_type : option string) (min_weight : Q),
    nodes (braid w) !! doc_id = None ->
    find_related_documents doc_id link_type min_weight w = (Ok [], w).
Proof.
  intros w doc_id link_type min_weight Hnone.
  unfold find_related_documents, get_document, get_world, bind, ret.
  rewrite Hnone. reflexivity.
Qed.

(** The path from an existing document to itself is the document alone,
    whatever the hop budget; the graph is not changed. *)
Theorem shortest_path_to_self :
  forall (w : World) (doc_id : string) (l : loc) (max_hops : Z),
    nodes (braid w) !! doc_id = Some l ->
    get_shortest_path doc_id doc_id max_hops w = (Ok (Some [l]), w).
Proof.
  intros w doc_id l max_hops Hl.
  unfold get_shortest_path, get_document, get_world, bind, ret.
  rewrite Hl, Pos.eqb_refl. reflexivity.
Qed.

End BraidFacts.

Section BraidWitnesses.
Import Braid BraidExamples.
Local Existing Instance sample_runtime.

Lemma symmetric_link_recurses_witness :
  nodes (braid two_docs) !! "a" = Some 1%positive
  /\ exists w',
      link_documents 1000 "a" "b" "similar_to" (1 # 2) None two_docs
      = (Raise RecursionError, w')
      /\ objects w' = objects two_docs.
Proof.
  split; [vm_compute; reflexivity |].
  apply (symmetric_link_recurses 1000 two_docs "a" "b" 1%positive 2%positive
           "similar_to" (1 # 2) None); vm_compute; reflexivity.
Defined.

Lemma find_related_unknown_id_witness :
  find_related_documents "missing" None 0 two_docs = (Ok [], two_docs).
Proof.
  apply (find_related_unknown_id two_docs "missing" None 0).
  vm_compute. reflexivity.
Defined.

Lemma shortest_path_to_self_witness :
  get_shortest_path "a" "a" 0 two_docs = (Ok (Some [1%positive]), two_docs).
Proof.
  apply (shortest_path_to_self two_docs "a" 1%positive 0).
  vm_compute. reflexivity.
Defined.

(** The tag carried by the metadata of document "a" is not found. *)
Example tag_in_metadata_not_found :
  fst (find_documents_by_tag "alpha" two_docs) = Ok [].
Proof. vm_compute. reflexivity. Qed.

(** C5. The hop budget is spent once per dequeued node, not once per
    level. In [fan] the target is two hops from the source, yet a search with
    a budget of two hops finds nothing: the three iterations the budget
    allows dequeue "a", "b1" and "b2", and "b3", on the same level as they,
    is never expanded. A budget of three finds the path, and so does the
    search that spends the budget per level with a budget of two. *)
Theorem hop_budget_counts_dequeued_nodes :
  nodes (braid fan) !! "a" = Some 1%positive
  /\ nodes (braid fan) !! "d" = Some 5%positive
  /\ is_path (objects fan) [1; 4; 5]%positive = true
  /\ fst (get_shortest_path "a" "d" 2 fan) = Ok None
  /\ fst (get_shortest_path "a" "d" 3 fan) = Ok (Some [1; 4; 5]%positive)
  /\ fst (shortest_path_by_level "a" "d" 2 fan) = Ok (Some [1; 4; 5]%positive).
Proof. vm_compute. repeat split; reflexivity. Qed.

End BraidWitnesses.

(** ** Properties of the execution ledger *)

Section RegistryFacts.
Import Registry.

(** [cls] refuses the dictionary that [to_dict] builds: ["duration"] is a
    property of the dataclass, not a field. *)
Lemma from_dict_to_dict (r : ExecutionRecord) :
  from_dict (to_dict r) = Raised TypeError.
Proof. destruct r as [? ? ? ? ? s ? ? ? ? ? ? ? ?]. destruct s; reflexivity. Qed.

Lemma load_saved_records (rs : list ExecutionRecord) (reg : ExecutionRegistry) :
  fold_left (fun reg rd => load_record rd reg)
            (map (fun r => JObj (to_dict r)) rs) reg = reg.
Proof.
  induction rs as [|r rs IH]; cbn [fold_left map]; [reflexivity |].
  replace (load_record (JObj (to_dict r)) reg) with reg; [exact IH |].
  unfold load_record. rewrite from_dict_to_dict. reflexivity.
Qed.

(** C2. Reloading a saved registry reproduces none of its records: every
    record that [_save_records] writes is rejected by [from_dict] with a
    [TypeError], which [_load_records] logs and skips, and the id counter
    restarts at 1. *)
Theorem reload_loses_every_record :
  forall (recs : list (string * ExecutionRecord)) (path : string) (counter : N)
         (utcnow : string) (disk0 : option file_content),
    registry
      (ExecutionRegistry_init (Some path)
         (disk (_save_records utcnow
                  {| registry := {| records := recs; storage_path := Some path;
                                    _next_execution_id := counter |};
                     disk := disk0 |})))
    = {| records := []; storage_path := Some path; _next_execution_id := 1 |}.
Proof.
  intros recs path counter utcnow disk0.
  unfold ExecutionRegistry_init, _save_records, _load_records. simpl.
  apply load_saved_records.
Qed.

(** The registry with one running execution holds one record and has
    written it; the registry reloaded from that file holds none. *)
Example reload_one_running :
  let st := snd RegistryExamples.one_running in
  map fst (records (registry st)) = ["ex-18bcfe56800-1"]
  /\ _next_execution_id (registry st) = 2%N
  /\ registry (ExecutionRegistry_init (Some "registry.json") (disk st))
     = {| records := []; storage_path := Some "registry.json";
          _next_execution_id := 1 |}.
Proof. vm_compute. repeat split; reflexivity. Qed.

Lemma get_execution_saved (utcnow : string) (id : string) (st : State) :
  get_execution id (_save_records utcnow st) = get_execution id st.
Proof.
  unfold get_execution, _save_records.
  destruct (storage_path (registry st)); reflexivity.
Qed.

Section Completion.
Context `{PyRuntime}.

(** C3. [complete_execution] and [fail_execution] do not look at the
    status of the record they are given: on any known id, in a terminal state
    or not, the first leaves the record COMPLETED with the new output and end
    time, the second FAILED with the new error and end time. *)
Theorem terminal_record_overwritten :
  forall (st : State) (id : string) (r : ExecutionRecord) (out : dict)
         (mtr : option dict) (err : string) (now sealed_at : Q) (utcnow : string),
    get_execution id st = Some r ->
    (exists r',
        get_execution id
          (snd (complete_execution id out mtr now sealed_at utcnow st)) = Some r'
        /\ status r' = COMPLETED /\ output r' = Some out /\ end_time r' = Some now)
    /\ (exists r',
        get_execution id (fail_execution id err mtr now utcnow st) = Some r'
        /\ status r' = FAILED /\ error r' = Some err /\ end_time r' = Some now).
Proof.
  intros st id r out mtr err now sealed_at utcnow Hget.
  unfold get_execution in Hget. split.
  - exists (completed out mtr now sealed_at r).
    unfold complete_execution. rewrite Hget.
    destruct (duration (completed out mtr now sealed_at r)); simpl;
      rewrite get_execution_saved; unfold get_execution, with_records; simpl;
      rewrite dict_get_set_eq; auto.
  - exists (failed err mtr now r).
    unfold fail_execution. rewrite Hget.
    rewrite get_execution_saved; unfold get_execution, with_records; simpl.
    rewrite dict_get_set_eq; auto.
Qed.

(** [cancel_execution] has the guard: on a record in a terminal state it
    changes nothing. *)
Lemma cancel_terminal_noop (st : State) (id : string) (r : ExecutionRecord)
  (now : Q) (utcnow : string) :
  get_execution id st = Some r ->
  status r = COMPLETED \/ status r = FAILED \/ status r = CANCELLED ->
  cancel_execution id now utcnow st = st.
Proof.
  unfold get_execution, cancel_execution. intros -> [-> | [-> | ->]]; reflexivity.
Qed.

End Completion.






End RegistryFacts.

Section RegistryWitnesses.
Import Registry RegistryExamples.
Local Existing Instance sample_runtime.

Lemma terminal_record_overwritten_witness :
  (status <$> get_execution "ex-18bcfe56800-1" one_failed) = Some FAILED
  /\ (exists r',
        get_execution "ex-18bcfe56800-1"
          (snd (complete_execution "ex-18bcfe56800-1" [("ok", JBool true)] None
                  1700000002 1700000003 "2023-11-14T22:13:22" one_failed))
        = Some r'
        /\ status r' = COMPLETED /\ output r' = Some [("ok", JBool true)]
        /\ end_time r' = Some 1700000002%Q).
Proof.
  split; [vm_compute; reflexivity |].
  assert (Hget : exists r, get_execution "ex-18bcfe56800-1" one_failed = Some r)
    by (vm_compute; eauto).
  destruct Hget as [r Hr].
  exact (proj1 (terminal_record_overwritten one_failed "ex-18bcfe56800-1" r
                  [("ok", JBool true)] None "" 1700000002 1700000003
                  "2023-11-14T22:13:22" Hr)).
Defined.

Lemma cancel_terminal_noop_witness :
  cancel_execution "ex-18bcfe56800-1" 1700000002 "2023-11-14T22:13:22" one_failed
  = one_failed.
Proof.
  assert (Hget : exists r, get_execution "ex-18bcfe56800-1" one_failed = Some r
                           /\ status r = FAILED)
    by (vm_compute; eauto).
  destruct Hget as [r [Hr Hs]].
  exact (cancel_terminal_noop one_failed "ex-18bcfe56800-1" r 1700000002
           "2023-11-14T22:13:22" Hr (or_intror (or_introl Hs))).
Defined.

End RegistryWitnesses.

(** ** Properties of the execution ids *)

Section IdFacts.
Import Registry.

Lemma lower_hex_cases (c : ascii) :
  is_lower_hex c = true ->
  In c ["0"; "1"; "2"; "3"; "4"; "5"; "6"; "7"; "8"; "9"; "a"; "b"; "c"; "d"; "e"; "f"]%char.
Proof.
  unfold is_lower_hex. intros Hc. apply existsb_exists in Hc.
  destruct Hc as [x [Hin Heq]]. apply Ascii.eqb_eq in Heq. subst x. exact Hin.
Qed.

Lemma lower_hex_is_hex (c : ascii) : is_lower_hex c = true -> is_hex_char c = true.
Proof.
  intros Hc. apply lower_hex_cases in Hc. simpl in Hc.
  repeat (destruct Hc as [<- | Hc]; [reflexivity |]). contradiction.
Qed.

Lemma lower_hex_not_dash (c : ascii) : is_lower_hex c = true -> Ascii.eqb c "-" = false.
Proof.
  intros Hc. apply lower_hex_cases in Hc. simpl in Hc.
  repeat (destruct Hc as [<- | Hc]; [reflexivity |]). contradiction.
Qed.

Lemma lower_hex_digit_bound (c : ascii) : is_lower_hex c = true -> (digit_of c < 16)%N.
Proof.
  intros Hc. apply lower_hex_cases in Hc. simpl in Hc.
  repeat (destruct Hc as [<- | Hc]; [reflexivity |]). contradiction.
Qed.

Lemma lower_hex_to_digit (c : ascii) :
  is_lower_hex c = true -> HexString.ascii_to_digit c = Some (digit_of c).
Proof.
  intros Hc. apply lower_hex_cases in Hc. simpl in Hc.
  repeat (destruct Hc as [<- | Hc]; [reflexivity |]). contradiction.
Qed.

(** On the sixteen digits the order of the characters is the order of
    their values. *)
Lemma lower_hex_compare (c1 c2 : ascii) :
  is_lower_hex c1 = true -> is_lower_hex c2 = true ->
  Ascii.compare c1 c2 = Lt -> (digit_of c1 < digit_of c2)%N.
Proof.
  intros H1 H2. apply lower_hex_cases in H1, H2. simpl in H1, H2.
  repeat (destruct H1 as [<- | H1]; [
    repeat (destruct H2 as [<- | H2];
            [vm_compute; first [reflexivity | discriminate] |]);
    contradiction |]).
  contradiction.
Qed.

Fixpoint of_pos_lower_hex (p : positive) (rest : string) {struct p} :
  all_chars is_lower_hex rest = true ->
  all_chars is_lower_hex (HexString.Raw.of_pos p rest) = true.
Proof.
  intros Hrest.
  do 4 try destruct p as [p|p|]; cbn [HexString.Raw.of_pos];
    first [ apply of_pos_lower_hex; cbn; exact Hrest | cbn; exact Hrest ].
Qed.

Lemma format_x_lower_hex (n : N) : all_chars is_lower_hex (format_x n) = true.
Proof.
  destruct n as [|p]; [reflexivity |]. apply of_pos_lower_hex. reflexivity.
Qed.

Lemma all_chars_impl (p q : ascii -> bool) (s : string) :
  (forall c, p c = true -> q c = true) ->
  all_chars p s = true -> all_chars q s = true.
Proof.
  intros Hpq. induction s as [|c s IH]; simpl; [reflexivity |].
  intros Hs. apply andb_true_iff in Hs. destruct Hs as [Hc Hs].
  rewrite (Hpq c Hc), (IH Hs). reflexivity.
Qed.

Lemma format_x_value (n : N) : HexString.Raw.to_N (format_x n) 0 = n.
Proof.
  destruct n as [|p]; [reflexivity |].
  unfold format_x. rewrite HexString.Raw.to_N_of_pos. reflexivity.
Qed.

(** The counter is read back from its rendering. *)
Lemma int16_format_x (n : N) : int16 (format_x n) = Some n.
Proof.
  unfold int16.
  rewrite (all_chars_impl _ _ _ lower_hex_is_hex (format_x_lower_hex n)).
  rewrite format_x_value.
  destruct (format_x n) eqn:E; [| reflexivity].
  pose proof (format_x_value n) as Hv. rewrite E in Hv. simpl in Hv. subst n.
  discriminate E.
Qed.

Lemma last_segment_from_no_dash (s acc : string) :
  all_chars is_lower_hex s = true -> last_segment_from s acc = acc.
Proof.
  revert acc. induction s as [|c s IH]; intros acc Hs; simpl; [reflexivity |].
  simpl in Hs. apply andb_true_iff in Hs. destruct Hs as [Hc Hs].
  rewrite (lower_hex_not_dash c Hc). apply IH. exact Hs.
Qed.

Lemma last_segment_from_app (a d acc : string) :
  all_chars is_lower_hex d = true ->
  last_segment_from (a ++ String "-" d) acc = d.
Proof.
  intros Hd. revert acc. induction a as [|c a IH]; intros acc; simpl.
  - apply last_segment_from_no_dash. exact Hd.
  - destruct (Ascii.eqb c "-"); apply IH.
Qed.

(** The id states its counter: the last segment of a generated id, read
    as [_load_records] reads it, is the counter it was generated from. *)
Lemma counter_of_generated_id (prefix : string) (n : N) :
  int16 (last_segment (prefix ++ "-" ++ format_x n)) = Some n.
Proof.
  unfold last_segment.
  change (prefix ++ "-" ++ format_x n) with (prefix ++ String "-" (format_x n)).
  rewrite last_segment_from_app by apply format_x_lower_hex.
  apply int16_format_x.
Qed.

(** Reading a digit string as a number: the accumulator is shifted by
    the length of the string. *)
Lemma to_N_shift (s : string) :
  all_chars is_lower_hex s = true ->
  forall acc : N,
    HexString.Raw.to_N s acc
    = (acc * 16 ^ N.of_nat (String.length s) + HexString.Raw.to_N s 0)%N
    /\ (HexString.Raw.to_N s 0 < 16 ^ N.of_nat (String.length s))%N.
Proof.
  induction s as [|c s IH]; intros Hs acc.
  - simpl. split; lia.
  - simpl in Hs. apply andb_true_iff in Hs. destruct Hs as [Hc Hs].
    cbn [HexString.Raw.to_N String.length].
    rewrite (lower_hex_to_digit c Hc).
    pose proof (lower_hex_digit_bound c Hc) as Hd.
    destruct (IH Hs (digit_of c + 16 * acc)%N) as [E1 B].
    destruct (IH Hs (digit_of c + 16 * 0)%N) as [E2 _].
    rewrite E1, E2.
    rewrite Nat2N.inj_succ, N.pow_succ_r'.
    split; nia.
Qed.

(** Digit strings of one length are ordered as the numbers they denote. *)
Lemma lower_hex_compare_value (s1 : string) :
  forall s2 : string,
    all_chars is_lower_hex s1 = true -> all_chars is_lower_hex s2 = true ->
    String.length s1 = String.length s2 ->
    String.compare s1 s2 = Lt ->
    (HexString.Raw.to_N s1 0 < HexString.Raw.to_N s2 0)%N.
Proof.
  induction s1 as [|c1 s1 IH]; intros [|c2 s2] H1 H2 Hlen Hcmp;
    try discriminate.
  simpl in H1, H2. apply andb_true_iff in H1, H2.
  destruct H1 as [Hc1 H1], H2 as [Hc2 H2].
  injection Hlen as Hlen.
  cbn [HexString.Raw.to_N].
  rewrite (lower_hex_to_digit c1 Hc1), (lower_hex_to_digit c2 Hc2).
  destruct (to_N_shift s1 H1 (digit_of c1 + 16 * 0)%N) as [E1 B1].
  destruct (to_N_shift s2 H2 (digit_of c2 + 16 * 0)%N) as [E2 B2].
  rewrite E1, E2, <- Hlen. rewrite <- Hlen in B2.
  simpl in Hcmp. destruct (Ascii.compare c1 c2) eqn:Hc; try discriminate.
  - apply Ascii.compare_eq_iff in Hc. subst c2.
    specialize (IH s2 H1 H2 Hlen Hcmp). lia.
  - pose proof (lower_hex_compare c1 c2 Hc1 Hc2 Hc). nia.
Qed.

(** Counters that render with the same number of digits render in their
    order. *)
Lemma format_x_monotone (n1 n2 : N) :
  (n1 < n2)%N ->
  String.length (format_x n1) = String.length (format_x n2) ->
  String.compare (format_x n1) (format_x n2) = Lt.
Proof.
  intros Hlt Hlen.
  destruct (String.compare (format_x n1) (format_x n2)) eqn:Hcmp.
  - apply String.compare_eq_iff in Hcmp.
    pose proof (format_x_value n1) as V1. rewrite Hcmp, format_x_value in V1. lia.
  - reflexivity.
  - assert (Hrev : String.compare (format_x n2) (format_x n1) = Lt).
    { rewrite String.compare_antisym, Hcmp. reflexivity. }
    apply lower_hex_compare_value in Hrev;
      auto using format_x_lower_hex.
    rewrite !format_x_value in Hrev. lia.
Qed.

Lemma compare_common_prefix (p a b : string) :
  String.compare (p ++ a) (p ++ b) = String.compare a b.
Proof.
  induction p as [|c p IH]; simpl; [reflexivity |].
  replace (Ascii.compare c c) with Eq; [exact IH |].
  symmetry. unfold Ascii.compare. apply N.compare_refl.
Qed.

Lemma length_append (a b : string) :
  String.length (a ++ b) = (String.length a + String.length b)%nat.
Proof. induction a as [|c a IH]; simpl; [reflexivity | rewrite IH; reflexivity]. Qed.

Lemma counter_of_id (ts : Z) (n : N) :
  int16 (last_segment (id_of ts n)) = Some n.
Proof.
  unfold id_of.
  replace ("ex-" ++ format_x_Z ts ++ "-" ++ format_x n)
    with (("ex-" ++ format_x_Z ts) ++ "-" ++ format_x n) by reflexivity.
  apply counter_of_generated_id.
Qed.

Lemma start_execution_id (c : StartCall) (st : State) :
  let r := start_execution (call_clock c) (call_kernel_name c) (call_doc_path c)
             (call_input_metadata c) (call_context c) (call_parent c) st in
  fst r = id_of (id_timestamp (call_clock c)) (_next_execution_id (registry st))
  /\ _next_execution_id (registry (snd r))
     = (_next_execution_id (registry st) + 1)%N.
Proof.
  unfold start_execution, _generate_execution_id, id_of. cbn zeta.
  split; [reflexivity |].
  cbn [snd]. unfold _save_records, with_records.
  destruct (call_parent c) as [p|]; cbn;
    repeat match goal with
           | |- context [if ?b then _ else _] => destruct b; cbn
           | |- context [match storage_path ?r with _ => _ end] =>
               destruct (storage_path r); cbn
           end; reflexivity.
Qed.

Lemma start_executions_ids (calls : list StartCall) :
  forall st : State,
    fst (start_executions calls st)
    = ids_from (_next_execution_id (registry st)) calls.
Proof.
  induction calls as [|c calls IH]; intros st; [reflexivity |].
  cbn [start_executions ids_from].
  pose proof (start_execution_id c st) as Hc. cbn zeta in Hc.
  destruct (start_execution _ _ _ _ _ _ st) as [id st1].
  cbn [fst snd] in Hc. destruct Hc as [-> Hnext].
  specialize (IH st1). rewrite Hnext in IH.
  destruct (start_executions calls st1) as [ids st2]. cbn [fst] in *.
  rewrite IH. reflexivity.
Qed.

Lemma ids_from_lookup (calls : list StartCall) :
  forall (n : N) (k : nat) (id : string),
    ids_from n calls !! k = Some id ->
    exists c, calls !! k = Some c
              /\ id = id_of (id_timestamp (call_clock c)) (n + N.of_nat k).
Proof.
  induction calls as [|c calls IH]; intros n k id Hk; [discriminate |].
  destruct k as [|k]; cbn in Hk.
  - injection Hk as <-. exists c. split; [reflexivity |].
    rewrite N.add_0_r. reflexivity.
  - destruct (IH _ _ _ Hk) as [c' [Hc' ->]]. exists c'. split; [exact Hc' |].
    f_equal. lia.
Qed.

Lemma append_assoc (a b c : string) : (a ++ b) ++ c = a ++ (b ++ c).
Proof.
  induction a as [|x a IH]; [reflexivity |].
  change (String x ((a ++ b) ++ c) = String x (a ++ (b ++ c))).
  rewrite IH. reflexivity.
Qed.

Lemma id_of_prefix (ts : Z) (n : N) :
  id_of ts n = ("ex-" ++ format_x_Z ts ++ "-") ++ format_x n.
Proof. unfold id_of. rewrite !append_assoc. reflexivity. Qed.

(** The last segment of a generated id, read as [_load_records] reads
    it, is the value the counter had when the id was generated. *)
Theorem generated_id_states_counter :
  forall (timestamp : Z) (st : State),
    int16 (last_segment (fst (_generate_execution_id timestamp st)))
    = Some (_next_execution_id (registry st)).
Proof. intros timestamp st. apply counter_of_id. Qed.

(** C6, amended. The ids that a sequence of [start_execution] calls generates on a
    registry are pairwise distinct. Among calls that read the same
    millisecond timestamp, an earlier id sorts lexically before a later one
    when the two ids have the same length, that is, when the two counters
    render with the same number of hexadecimal digits. *)
Theorem generated_ids_distinct_and_ordered :
  forall (calls : list StartCall) (st : State),
    let ids := fst (start_executions calls st) in
    NoDup ids
    /\ forall (i j : nat) (ci cj : StartCall) (idi idj : string),
        (i < j)%nat ->
        calls !! i = Some ci -> calls !! j = Some cj ->
        ids !! i = Some idi -> ids !! j = Some idj ->
        id_timestamp (call_clock ci) = id_timestamp (call_clock cj) ->
        String.length idi = String.length idj ->
        String.compare idi idj = Lt.
Proof.
  intros calls st ids. subst ids. rewrite start_executions_ids.
  set (n := _next_execution_id (registry st)). split.
  - apply NoDup_alt. intros i j id Hi Hj.
    apply ids_from_lookup in Hi, Hj.
    destruct Hi as [ci [_ Ei]], Hj as [cj [_ Ej]].
    pose proof (counter_of_id (id_timestamp (call_clock ci)) (n + N.of_nat i)) as Ci.
    pose proof (counter_of_id (id_timestamp (call_clock cj)) (n + N.of_nat j)) as Cj.
    rewrite <- Ei in Ci. rewrite <- Ej in Cj. rewrite Ci in Cj.
    injection Cj as Cj. lia.
  - intros i j ci cj idi idj Hij Hci Hcj Hi Hj Hts Hlen.
    apply ids_from_lookup in Hi, Hj.
    destruct Hi as [ci' [Hci' ->]], Hj as [cj' [Hcj' ->]].
    rewrite Hci in Hci'. rewrite Hcj in Hcj'.
    injection Hci' as <-. injection Hcj' as <-.
    rewrite Hts in *. rewrite !id_of_prefix in *.
    rewrite compare_common_prefix. rewrite !length_append in Hlen.
    apply format_x_monotone; lia.
Qed.

End IdFacts.

Section IdWitnesses.
Import Registry RegistryExamples.

(** The fifteenth and the sixteenth execution started within one
    millisecond on a fresh registry: the later id sorts first. *)
Lemma later_id_sorts_first :
  let ids := fst (start_executions sixteen_calls fresh_registry) in
  ids !! 14%nat = Some "ex-18bcfe56800-f"
  /\ ids !! 15%nat = Some "ex-18bcfe56800-10"
  /\ String.compare "ex-18bcfe56800-f" "ex-18bcfe56800-10" = Gt.
Proof. vm_compute. repeat split; reflexivity. Qed.

Lemma generated_ids_distinct_and_ordered_witness :
  let ids := fst (start_executions sixteen_calls fresh_registry) in
  NoDup ids
  /\ String.compare "ex-18bcfe56800-1" "ex-18bcfe56800-2" = Lt.
Proof.
  pose proof (generated_ids_distinct_and_ordered sixteen_calls fresh_registry)
    as [Hnodup Hord].
  split; [exact Hnodup |].
  eapply (Hord 0%nat 1%nat); first [lia | vm_compute; reflexivity].
Defined.

End IdWitnesses.

(** ** Properties of the chain sync *)

Section NetSyncFacts.
Import NetSync.

Lemma first_entry_with_found (h : string) (l : list json) (e : dict) :
  first_entry_with h l = Ok (Some e) ->
  dict_get "registry_hash" e = Some (JStr h).
Proof.
  induction l as [|x l IH]; simpl; [discriminate |].
  destruct x as [| | | |?|d]; try discriminate.
  destruct (dict_get "registry_hash" d) as [[| | |h'| |]|] eqn:Hd; auto.
  destruct (String.eqb h' h) eqn:Hh; auto.
  apply String.eqb_eq in Hh. subst h'. intros [= <-]. exact Hd.
Qed.

Lemma existing_entry_found (h : string) (sc e : dict) :
  existing_entry h sc = Ok (Some e) ->
  dict_get "registry_hash" e = Some (JStr h).
Proof.
  unfold existing_entry.
  destruct (dict_get "entries" sc) as [[| | |s|l|d]|]; try discriminate.
  - destruct s; discriminate.
  - apply first_entry_with_found.
  - destruct d; discriminate.
Qed.

Lemma first_entry_with_app (h : string) (l : list json) (e : dict) :
  first_entry_with h l = Ok None ->
  dict_get "registry_hash" e = Some (JStr h) ->
  first_entry_with h (l ++ [JObj e]) = Ok (Some e).
Proof.
  intros Hl He. induction l as [|x l IH]; simpl in *.
  - rewrite He, String.eqb_refl. reflexivity.
  - destruct x as [| | | |?|d]; try discriminate.
    destruct (dict_get "registry_hash" d) as [[| | |h'| |]|]; auto.
    destruct (String.eqb h' h); [discriminate | auto].
Qed.

(** Appending the entry of the current hash to a log that does not hold
    the hash yet makes it the entry that the next search finds. *)
Lemma append_then_found (h : string) (sc sc' e : dict) :
  existing_entry h sc = Ok None ->
  append_entry (JObj e) sc = Ok sc' ->
  dict_get "registry_hash" e = Some (JStr h) ->
  existing_entry h sc' = Ok (Some e)
  /\ entries_of sc' = (entries_of sc ++ [JObj e])%list.
Proof.
  unfold existing_entry, append_entry, entries_of. intros Hex Happ He.
  destruct (dict_get "entries" sc) as [[| | |s|l|d]|]; try discriminate;
    injection Happ as <-; rewrite dict_get_set_eq.
  - split; [apply first_entry_with_app; assumption | reflexivity].
  - split; [| reflexivity]. simpl. rewrite He, String.eqb_refl. reflexivity.
Qed.

Section Sync.
Context `{PyRuntime}.

Lemma verified_success (self : ScrollChainSync) (utcnow : string) (fs : FileSystem) :
  fst (fst (verified self utcnow fs)) = true ->
  verified self utcnow fs = ((true, Synchronized utcnow), fs).
Proof. unfold verified. destruct (verify_sync self fs); [reflexivity | discriminate]. Qed.

(** C8, amended. When a call of [sync_registry] with [force=False] returns
    success, a second such call with the ledger file unchanged returns
    success with the already-synchronized message and leaves the log as it
    is; the two calls together append exactly one entry when the hash of the
    ledger was not in the log before the first call, and none when it was. *)
Theorem sync_registry_twice :
  forall (self : ScrollChainSync) (utcnow1 utcnow2 : string) (fs : FileSystem),
    let r1 := sync_registry self utcnow1 false fs in
    let r2 := sync_registry self utcnow2 false (snd r1) in
    fst (fst r1) = true ->
    (exists t, fst r2 = (true, AlreadySynchronized t))
    /\ snd r2 = snd r1
    /\ length (log_entries (snd r2))
       = (length (log_entries fs) + (if verify_sync self fs then 0 else 1))%nat.
Proof.
  intros self utcnow1 utcnow2 fs r1 r2 Hok. subst r1 r2.
  unfold sync_registry in *.
  set (h := _compute_registry_hash self fs) in *.
  destruct (String.eqb h "") eqn:Hh; [discriminate |].
  set (entry1 := [("registry_hash", JStr h); ("timestamp", JStr utcnow1);
                  ("registry_path", JStr (abspath (registry_path self)))]) in *.
  assert (Hsame : forall sc, _compute_registry_hash self (write_scrollchain sc fs) = h)
    by reflexivity.
  assert (He1 : dict_get "registry_hash" entry1 = Some (JStr h)) by reflexivity.
  destruct (scrollchain_file fs) as [content|] eqn:Hfile.
  - set (sc := match content with Json (JObj d) => d | _ => _ end) in *.
    destruct (existing_entry h sc) as [[e|]|err] eqn:Hex; [| | discriminate].
    + pose proof (existing_entry_found _ _ _ Hex) as Hreg.
      destruct e as [|b e]; [discriminate |].
      destruct (dict_get "timestamp" (b :: e)) as [t|] eqn:Ht; [| discriminate].
      cbn [snd fst].
      fold h. rewrite Hh, Hfile. fold sc. rewrite Hex, Ht. cbn [fst snd].
      split; [eexists; reflexivity | split; [reflexivity |]].
      unfold verify_sync. fold h. rewrite Hh, Hfile.
      assert (Hc : content = Json (JObj sc)).
      { subst sc. destruct content as [|[| | | | |d]]; try discriminate; reflexivity. }
      rewrite Hc, Hex. lia.
    + destruct (append_entry (JObj entry1) sc) as [sc'|err] eqn:Happ; [| discriminate].
      rewrite (verified_success _ _ _ Hok). cbn [snd fst].
      destruct (append_then_found h sc sc' entry1 Hex Happ He1) as [Hfound Hent].
      rewrite Hsame, Hh. cbn [scrollchain_file write_scrollchain].
      rewrite Hfound. cbn.
      split; [eexists; reflexivity | split; [reflexivity |]].
      unfold log_entries. cbn [scrollchain_file write_scrollchain].
      rewrite Hent, length_app. cbn [length].
      unfold verify_sync. fold h. rewrite Hh, Hfile.
      destruct content as [|[| | | | |d]]; try reflexivity.
      subst sc. rewrite Hex. reflexivity.
  - rewrite (verified_success _ _ _ Hok). cbn [snd fst].
    rewrite Hsame, Hh. cbn [scrollchain_file write_scrollchain].
    cbn. rewrite String.eqb_refl. cbn.
    split; [eexists; reflexivity | split; [reflexivity |]].
    unfold verify_sync, log_entries. fold h. rewrite Hh, Hfile. reflexivity.
Qed.

End Sync.
End NetSyncFacts.

Section NetSyncWitnesses.
Import NetSync NetSyncExamples.
Local Existing Instance sample_runtime.

(** Two calls in a row on a ledger that was synchronized before append
    nothing, and two calls in a row without a ledger file both fail. *)
Lemma sync_twice_without_append :
  (let r1 := sync_registry default_sync "2023-11-14T22:13:20" false synced in
   let r2 := sync_registry default_sync "2023-11-14T22:13:21" false (snd r1) in
   fst (fst r1) = true /\ fst (fst r2) = true
   /\ log_entries (snd r2) = log_entries synced
   /\ length (log_entries synced) = 1%nat)
  /\ (let r1 := sync_registry default_sync "2023-11-14T22:13:20" false no_ledger in
      let r2 := sync_registry default_sync "2023-11-14T22:13:21" false (snd r1) in
      fst r2 = (false, HashFailed) /\ log_entries (snd r2) = []).
Proof. vm_compute. repeat split; reflexivity. Qed.

Lemma sync_registry_twice_witness :
  let r1 := sync_registry default_sync "2023-11-14T22:13:20" false unsynced in
  let r2 := sync_registry default_sync "2023-11-14T22:13:21" false (snd r1) in
  fst (fst r1) = true
  /\ (exists t, fst r2 = (true, AlreadySynchronized t))
  /\ snd r2 = snd r1
  /\ length (log_entries (snd r2)) = 1%nat.
Proof.
  assert (Hok : fst (fst (sync_registry default_sync "2023-11-14T22:13:20"
                             false unsynced)) = true)
    by (vm_compute; reflexivity).
  destruct (sync_registry_twice default_sync "2023-11-14T22:13:20"
              "2023-11-14T22:13:21" unsynced Hok) as (Hmsg & Hfs & Hlen).
  split; [exact Hok | split; [exact Hmsg | split; [exact Hfs |]]].
  rewrite Hlen. vm_compute. reflexivity.
Defined.

End NetSyncWitnesses.

(** * Further properties *)

(** ** The relationship graph *)

Section MoreBraidFacts.
Import Braid BraidExamples.
Local Open Scope braid_scope.
Context `{PyRuntime}.

(** [add_document] binds the id to a new node without links, whether or
    not the id was bound before: the links of a replaced node are not
    carried over. Every other id, and every other object, is as before. *)
Theorem add_document_lookup :
  forall (w : World) (doc_id doc_path : string) (md : option dict),
    let res := add_document doc_id doc_path md w in
    fst res = Ok (fresh w)
    /\ get_document doc_id (snd res) = (Ok (Some (fresh w)), snd res)
    /\ objects (snd res) !! fresh w = Some (DocumentNode_init doc_id doc_path md)
    /\ links_of (objects (snd res)) (fresh w) = []
    /\ (forall id' : string,
          id' <> doc_id -> nodes (braid (snd res)) !! id' = nodes (braid w) !! id')
    /\ (forall l' : loc,
          l' <> fresh w -> objects (snd res) !! l' = objects w !! l').
Proof.
  intros w doc_id doc_path md res. subst res.
  unfold add_document, get_document, get_world, put_world, bind, ret, links_of.
  cbn [fst snd objects braid nodes].
  rewrite !lookup_insert_eq. cbn [links DocumentNode_init].
  repeat split.
  - intros id' Hne. rewrite lookup_insert_ne by congruence. reflexivity.
  - intros l' Hne. rewrite lookup_insert_ne by congruence. reflexivity.
Qed.

(** [link_documents] with an endpoint that is not in the graph returns
    [None] and changes nothing; the link type is not registered either. *)
Theorem link_documents_missing_endpoint :
  forall (depth : nat) (w : World) (source_id target_id ty : string) (wt : Q)
         (md : option dict),
    nodes (braid w) !! source_id = None \/ nodes (braid w) !! target_id = None ->
    link_documents depth source_id target_id ty wt md w = (Ok None, w).
Proof.
  intros depth w source_id target_id ty wt md Hmiss.
  unfold link_documents, get_document, get_world, bind, ret.
  destruct Hmiss as [-> | ->]; [reflexivity |].
  destruct (nodes (braid w) !! source_id); reflexivity.
Qed.

(** [link_documents] between two documents of the graph, with a link type
    that is not symmetric: the link is returned, it carries the clamped
    weight, it is appended to the links of the source node and to no other,
    and its type is registered. *)
Theorem link_documents_directional :
  forall (depth : nat) (w : World) (source_id target_id ty : string) (wt : Q)
         (md : option dict) (s t : loc) (n : DocumentNode),
    nodes (braid w) !! source_id = Some s ->
    nodes (braid w) !! target_id = Some t ->
    objects w !! s = Some n ->
    is_symmetric ty = false ->
    let link := {| source := s; target := t; link_type := ty;
                   weight := py_max 0 (py_min 1 wt); metadata := or_empty md |} in
    let res := link_documents (S depth) source_id target_id ty wt md w in
    fst res = Ok (Some link)
    /\ links_of (objects (snd res)) s = (links n ++ [link])%list
    /\ (forall l' : loc, l' <> s -> objects (snd res) !! l' = objects w !! l')
    /\ link_types (braid (snd res)) = {[ty]} ∪ link_types (braid w)
    /\ nodes (braid (snd res)) = nodes (braid w).
Proof.
  intros depth w source_id target_id ty wt md s t n Hs Ht Hn Hdir link res.
  subst res link.
  unfold link_documents, get_document, get_world, bind, ret.
  rewrite Hs, Ht. unfold modify_braid, add_link, bind.
  rewrite DocumentLink_init_directional by assumption.
  assert (Hmd : or_empty (Some (or_empty md)) = or_empty md)
    by (destruct md as [[|b d]|]; reflexivity).
  rewrite Hmd.
  unfold modify_objects, ret, append_link, links_of.
  cbn [fst snd objects braid nodes link_types].
  rewrite lookup_alter_eq, Hn. cbn [fmap option_fmap option_map links].
  repeat split.
  intros l' Hne. rewrite lookup_alter_ne by congruence. reflexivity.
Qed.

Lemma insert_desc_perm (x : loc * Q) (l : list (loc * Q)) :
  Permutation (insert_desc x l) (x :: l).
Proof.
  induction l as [|y l IH]; simpl; [reflexivity |].
  destruct (Qle_bool (snd y) (snd x)); [reflexivity |].
  rewrite IH. apply perm_swap.
Qed.

Lemma insert_desc_sorted (x : loc * Q) (l : list (loc * Q)) :
  StronglySorted (fun a b => (snd b <= snd a)%Q) l ->
  StronglySorted (fun a b => (snd b <= snd a)%Q) (insert_desc x l).
Proof.
  induction 1 as [|y l Hl IH Hy]; simpl.
  - constructor; constructor.
  - destruct (Qle_bool (snd y) (snd x)) eqn:Hle.
    + apply Qle_bool_iff in Hle.
      constructor; [constructor; assumption |].
      constructor; [exact Hle |].
      eapply Forall_impl; [exact Hy |].
      intros a Ha. cbn in Ha. eapply Qle_trans; eassumption.
    + assert (Hlt : (snd x < snd y)%Q).
      { apply Qnot_le_lt. intros C. apply Qle_bool_iff in C. congruence. }
      constructor; [exact IH |].
      assert (Hall : Forall (fun b : loc * Q => (snd b <= snd y)%Q) (x :: l))
        by (constructor; [apply Qlt_le_weak; exact Hlt | exact Hy]).
      rewrite <- (insert_desc_perm x l) in Hall. exact Hall.
Qed.

Lemma insert_desc_stable (q : Q) (x : loc * Q) (l : list (loc * Q)) :
  List.filter (fun a => Qeq_bool (snd a) q) (insert_desc x l)
  = List.filter (fun a => Qeq_bool (snd a) q) (x :: l).
Proof.
  induction l as [|y l IH]; [reflexivity |].
  cbn [insert_desc]. destruct (Qle_bool (snd y) (snd x)) eqn:Hle; [reflexivity |].
  cbn [List.filter] in *. rewrite IH.
  destruct (Qeq_bool (snd x) q) eqn:Hx, (Qeq_bool (snd y) q) eqn:Hy;
    try reflexivity.
  apply Qeq_bool_iff in Hx, Hy.
  assert (Hyx : (snd y <= snd x)%Q) by (rewrite Hx, Hy; apply Qle_refl).
  apply Qle_bool_iff in Hyx. congruence.
Qed.

Lemma sorted_desc_spec (l : list (loc * Q)) :
  Permutation (sorted_desc l) l
  /\ StronglySorted (fun a b => (snd b <= snd a)%Q) (sorted_desc l)
  /\ forall q : Q,
       List.filter (fun a => Qeq_bool (snd a) q) (sorted_desc l)
       = List.filter (fun a => Qeq_bool (snd a) q) l.
Proof.
  induction l as [|x l (Hp & Hs & Hst)]; cbn [sorted_desc foldr].
  - repeat split; constructor.
  - fold (sorted_desc l). repeat split.
    + rewrite insert_desc_perm, Hp. reflexivity.
    + apply insert_desc_sorted. exact Hs.
    + intros q. rewrite insert_desc_stable. cbn [List.filter]. rewrite Hst.
      reflexivity.
Qed.

(** [find_related_documents] on a document of the graph returns, without
    changing the graph, the (target, weight) pairs of exactly those links of
    the node that have the requested type (any type when none is requested)
    and a weight of at least [min_weight]: each such link once, in order of
    descending weight, links of equal weight in the order they were added. *)
Theorem find_related_sorted :
  forall (w : World) (doc_id : string) (n : loc) (lt : option string) (mw : Q),
    nodes (braid w) !! doc_id = Some n ->
    let selected :=
      map (fun link : DocumentLink => (target link, weight link))
        (List.filter
           (fun link : DocumentLink =>
              match lt with
              | None => true
              | Some t => String.eqb (link_type link) t
              end && Qle_bool mw (weight link))
           (links_of (objects w) n)) in
    exists res : list (loc * Q),
      find_related_documents doc_id lt mw w = (Ok res, w)
      /\ Permutation res selected
      /\ StronglySorted (fun a b => (snd b <= snd a)%Q) res
      /\ forall q : Q,
           List.filter (fun a => Qeq_bool (snd a) q) res
           = List.filter (fun a => Qeq_bool (snd a) q) selected.
Proof.
  intros w doc_id n lt mw Hn selected.
  unfold find_related_documents, get_document, get_world, bind, ret.
  rewrite Hn. eexists. split; [reflexivity |].
  match goal with
  | |- context [sorted_desc ?l] =>
      replace l with selected; [apply sorted_desc_spec |]
  end.
  subst selected. induction (links_of (objects w) n) as [|link ls IH];
    [reflexivity |].
  simpl.
  destruct (match lt with
            | Some t => String.eqb (link_type link) t
            | None => true
            end && Qle_bool mw (weight link)); simpl; rewrite IH; reflexivity.
Qed.

(** *** Soundness of the path search *)

Lemma is_path_cons (objs : gmap loc DocumentNode) (x y : loc) (r : list loc) :
  is_path objs (x :: y :: r)
  = existsb (fun link => Pos.eqb (target link) y) (links_of objs x)
    && is_path objs (y :: r).
Proof. reflexivity. Qed.

Lemma is_path_snoc (objs : gmap loc DocumentNode) (p : list loc) (c t : loc) :
  is_path objs p = true -> last p = Some c ->
  existsb (fun link => Pos.eqb (target link) t) (links_of objs c) = true ->
  is_path objs (p ++ [t])%list = true.
Proof.
  intros Hp Hc Ht. induction p as [|x [|y r] IH]; [discriminate | |].
  - injection Hc as ->. simpl. rewrite Ht. reflexivity.
  - rewrite is_path_cons in Hp. apply andb_true_iff in Hp.
    destruct Hp as [Hxy Hr].
    change ((x :: y :: r) ++ [t])%list with (x :: y :: (r ++ [t]))%list.
    rewrite is_path_cons, Hxy. apply IH; assumption.
Qed.

Lemma scan_links_sound (objs : gmap loc DocumentNode) (s t current : loc)
  (path : list loc) (k : nat) (ls : list DocumentLink) :
  good_entry objs s k (current, path) ->
  Forall (fun link => In link (links_of objs current)) ls ->
  forall (visited : gset loc) (queue : list (loc * list loc)),
    Forall (good_entry objs s (S k)) queue ->
    match scan_links t path ls visited queue with
    | Found p => good_entry objs s (S k) (t, p)
    | Continue _ queue' => Forall (good_entry objs s (S k)) queue'
    end.
Proof.
  intros (Hhd & Hlast & Hpath & Hlen) Hls. cbn [fst snd] in *.
  assert (Hstep : forall x : loc,
             (exists link, In link (links_of objs current) /\ target link = x) ->
             good_entry objs s (S k) (x, (path ++ [x])%list)).
  { intros x (link & Hin & <-). unfold good_entry. cbn [fst snd].
    repeat split.
    - destruct path; [discriminate | exact Hhd].
    - apply last_snoc.
    - apply (is_path_snoc objs path current); [assumption .. |].
      apply existsb_exists. exists link. split; [exact Hin | apply Pos.eqb_refl].
    - rewrite length_app. simpl. lia. }
  induction Hls as [|link ls Hin Hls IH]; intros visited queue Hq; simpl;
    [exact Hq |].
  destruct (bool_decide (target link ∈ visited)); [apply IH; exact Hq |].
  destruct (Pos.eqb_spec (target link) t) as [Heq | Hne].
  - apply Hstep. exists link. auto.
  - apply IH. apply Forall_app. split; [exact Hq |].
    constructor; [| constructor]. apply Hstep. exists link. auto.
Qed.

Lemma bfs_loop_sound (objs : gmap loc DocumentNode) (s t : loc) (fuel : nat) :
  forall (k : nat) (visited : gset loc) (queue : list (loc * list loc))
         (max_hops : Z) (p : list loc),
    Forall (good_entry objs s k) queue ->
    bfs_loop fuel objs t visited queue max_hops = Some p ->
    good_entry objs s (k + fuel) (t, p).
Proof.
  induction fuel as [|fuel IH]; intros k visited queue max_hops p Hq Hp;
    [discriminate |].
  cbn [bfs_loop] in Hp. destruct queue as [|[current path] queue]; [discriminate |].
  destruct (max_hops <? 0)%Z; [discriminate |].
  apply Forall_cons in Hq. destruct Hq as [Hc Hq].
  assert (Hq' : Forall (good_entry objs s (S k)) queue).
  { eapply Forall_impl; [exact Hq |].
    intros e (? & ? & ? & ?). unfold good_entry. auto with lia. }
  pose proof (scan_links_sound objs s t current path k
                (links_of objs current) Hc) as Hscan.
  assert (Hall : Forall (fun link => In link (links_of objs current))
                        (links_of objs current)).
  { apply Forall_forall. intros x Hx. apply list_elem_of_In. exact Hx. }
  specialize (Hscan Hall visited queue Hq').
  destruct (scan_links t path (links_of objs current) visited queue)
    as [p' | visited' queue'].
  - injection Hp as <-. destruct Hscan as (? & ? & ? & ?).
    unfold good_entry. cbn [fst snd] in *. auto with lia.
  - replace (k + S fuel)%nat with (S k + fuel)%nat by lia.
    eapply IH; eassumption.
Qed.

(** Every path that [get_shortest_path] returns is a path of the graph: it
    starts at the source document, ends at the target document, each of its
    nodes has a link to the next, and it has at most [max_hops + 2] nodes
    (one node when the budget is below [-1]: the path from a document to
    itself). The search changes nothing. *)
Theorem shortest_path_sound :
  forall (w w' : World) (source_id target_id : string) (max_hops : Z)
         (p : list loc),
    get_shortest_path source_id target_id max_hops w = (Ok (Some p), w') ->
    w' = w
    /\ exists s t : loc,
        nodes (braid w) !! source_id = Some s
        /\ nodes (braid w) !! target_id = Some t
        /\ hd_error p = Some s /\ last p = Some t
        /\ is_path (objects w) p = true
        /\ (length p <= Z.to_nat (max_hops + 1) + 1)%nat.
Proof.
  intros w w' source_id target_id max_hops p.
  unfold get_shortest_path, get_document, get_world, bind, ret.
  destruct (nodes (braid w) !! source_id) as [s|]; [| discriminate].
  destruct (nodes (braid w) !! target_id) as [t|]; [| discriminate].
  destruct (Pos.eqb_spec s t) as [<- | Hne].
  - intros [= <- <-]. split; [reflexivity |]. exists s, s.
    repeat split; simpl; lia.
  - intros Heq. injection Heq as Hp <-. split; [reflexivity |]. exists s, t.
    assert (Hinit : Forall (good_entry (objects w) s 1) [(s, [s])]).
    { constructor; [| constructor]. unfold good_entry. simpl. auto. }
    destruct (bfs_loop_sound _ s t _ 1%nat _ _ _ p Hinit Hp) as (? & ? & ? & ?).
    cbn [fst snd] in *. repeat split; try assumption. lia.
Qed.

Lemma scan_links_finds (t : loc) (path : list loc) (ls : list DocumentLink) :
  forall (visited : gset loc) (queue : list (loc * list loc)),
    t ∉ visited ->
    (exists link, In link ls /\ target link = t) ->
    scan_links t path ls visited queue = Found (path ++ [t])%list.
Proof.
  induction ls as [|link ls IH]; intros visited queue Hnv (l0 & Hin & Ht);
    [destruct Hin |].
  simpl. destruct (bool_decide_reflect (target link ∈ visited)) as [Hv | Hv].
  - apply IH; [exact Hnv |]. destruct Hin as [Heq | Hin]; [| eauto].
    subst l0. congruence.
  - destruct (Pos.eqb_spec (target link) t) as [Heq | Hne]; [reflexivity |].
    apply IH.
    + apply not_elem_of_union. split; [| exact Hnv].
      apply not_elem_of_singleton. congruence.
    + destruct Hin as [Heq | Hin]; [| eauto]. subst l0. congruence.
Qed.

(** When the source document has a link to a different target document,
    [get_shortest_path] returns the two-node path for every hop budget that
    is not negative, whatever else the graph holds. *)
Theorem shortest_path_direct_link :
  forall (w : World) (source_id target_id : string) (max_hops : Z) (s t : loc),
    nodes (braid w) !! source_id = Some s ->
    nodes (braid w) !! target_id = Some t ->
    s <> t ->
    (exists link, In link (links_of (objects w) s) /\ target link = t) ->
    (0 <= max_hops)%Z ->
    get_shortest_path source_id target_id max_hops w = (Ok (Some [s; t]), w).
Proof.
  intros w source_id target_id max_hops s t Hs Ht Hne Hlink Hhops.
  unfold get_shortest_path, get_document, get_world, bind, ret.
  rewrite Hs, Ht. destruct (Pos.eqb_spec s t) as [| _]; [contradiction |].
  replace (Z.to_nat (max_hops + 1)) with (S (Z.to_nat max_hops)) by lia.
  rewrite bfs_loop_step by assumption.
  rewrite (scan_links_finds t [s] _ {[s]} [] ltac:(set_solver) Hlink).
  reflexivity.
Qed.

(** A tag added to a node with [add_tag] is found on the node by
    [has_tag], under every spelling with the same lower-case form, but the
    tag index of the graph is not told: [find_documents_by_tag] answers what
    it answered before, for every tag. *)
Theorem add_tag_not_indexed :
  forall (w : World) (l : loc) (n : DocumentNode) (tag tag' query : string),
    objects w !! l = Some n ->
    str_lower tag' = str_lower tag ->
    let w' := snd (add_tag l tag w) in
    fst (has_tag l tag' w') = Ok true
    /\ braid w' = braid w
    /\ fst (find_documents_by_tag query w') = fst (find_documents_by_tag query w).
Proof.
  intros w l n tag tag' query Hn Hlow w'. subst w'.
  unfold add_tag, has_tag, find_documents_by_tag, modify_objects, get_world,
    bind, ret.
  cbn [fst snd objects braid].
  rewrite lookup_alter_eq, Hn. cbn [fmap option_fmap option_map tags].
  repeat split. rewrite Hlow.
  rewrite bool_decide_eq_true_2; [reflexivity |].
  apply elem_of_union_l, elem_of_singleton. reflexivity.
Qed.

(** An embedding stored with [add_embedding] under a model name is what
    [get_embedding] returns for that name; the embeddings stored under other
    names are not affected. *)
Theorem embedding_round_trip :
  forall (w : World) (l : loc) (n : DocumentNode) (model_name : string)
         (embedding : list Q),
    objects w !! l = Some n ->
    let w' := snd (add_embedding l model_name embedding w) in
    fst (get_embedding l model_name w') = Ok (Some embedding)
    /\ (forall other : string,
          other <> model_name ->
          fst (get_embedding l other w') = fst (get_embedding l other w))
    /\ links_of (objects w') l = links_of (objects w) l
    /\ braid w' = braid w.
Proof.
  intros w l n model_name embedding Hn w'. subst w'.
  unfold add_embedding, get_embedding, modify_objects, get_world, bind, ret,
    links_of.
  cbn [fst snd objects braid].
  rewrite lookup_alter_eq, Hn. cbn [fmap option_fmap option_map embeddings links].
  repeat split.
  - rewrite lookup_insert_eq. reflexivity.
  - intros other Hne. rewrite lookup_insert_ne by congruence. reflexivity.
Qed.

(** A link made by [link_documents] with a link type that is not symmetric
    is the last [get_links] returns for the source document, asked without
    a type or with the link's type; asked for any other type, [get_links]
    returns what it returned before. *)
Theorem get_links_after_link :
  forall (depth : nat) (w : World) (source_id target_id ty : string) (wt : Q)
         (md : option dict) (s t : loc) (n : DocumentNode) (asked : option string),
    nodes (braid w) !! source_id = Some s ->
    nodes (braid w) !! target_id = Some t ->
    objects w !! s = Some n ->
    is_symmetric ty = false ->
    let link := {| source := s; target := t; link_type := ty;
                   weight := py_max 0 (py_min 1 wt); metadata := or_empty md |} in
    let w' := snd (link_documents (S depth) source_id target_id ty wt md w) in
    exists before : list DocumentLink,
      get_links s asked w = (Ok before, w)
      /\ get_links s asked w'
         = (Ok (before ++ match asked with
                          | Some ty' => if String.eqb ty ty' then [link] else []
                          | None => [link]
                          end)%list, w').
Proof.
  intros depth w source_id target_id ty wt md s t n asked Hs Ht Hn Hdir link w'.
  subst w' link.
  unfold link_documents, get_document, get_world, bind, ret.
  rewrite Hs, Ht. unfold modify_braid, add_link, bind.
  rewrite DocumentLink_init_directional by assumption.
  assert (Hmd : or_empty (Some (or_empty md)) = or_empty md)
    by (destruct md as [[|b d]|]; reflexivity).
  rewrite Hmd.
  unfold modify_objects, ret, append_link, get_links, get_world, bind, ret,
    links_of.
  cbn [fst snd objects braid nodes link_types].
  rewrite lookup_alter_eq, Hn. cbn [fmap option_fmap option_map links].
  destruct asked as [ty'|].
  - exists (List.filter (fun link => String.eqb (link_type link) ty') (links n)).
    split; [reflexivity |].
    rewrite List.filter_app. cbn [List.filter link_type].
    destruct (String.eqb ty ty'); reflexivity.
  - exists (links n). split; reflexivity.
Qed.

(** A document added with an empty id gets the digest of its path, title
    and type as the [id] of its node, but the graph stores the node under
    the empty id it was given: [get_document] finds it under [""], and under
    the generated id it answers what it answered before the document was
    added. *)
Theorem generated_id_not_registered :
  forall (w : World) (doc_path : string) (md : option dict),
    let res := add_document "" doc_path md w in
    exists n : DocumentNode,
      objects (snd res) !! fresh w = Some n
      /\ id n = sha256_hexdigest
                  (doc_path ++ ":" ++ str_of (title n) ++ ":" ++ str_of (doc_type n))
      /\ get_document "" (snd res) = (Ok (Some (fresh w)), snd res)
      /\ (id n <> "" ->
          fst (get_document (id n) (snd res)) = fst (get_document (id n) w)).
Proof.
  intros w doc_path md res. subst res.
  exists (DocumentNode_init "" doc_path md).
  unfold add_document, get_document, get_world, put_world, bind, ret.
  cbn [fst snd objects braid nodes].
  rewrite !lookup_insert_eq. repeat split.
  intros Hne. rewrite lookup_insert_ne by congruence. reflexivity.
Qed.

End MoreBraidFacts.

Section MoreBraidWitnesses.
Import Braid BraidExamples.
Local Open Scope braid_scope.
Local Existing Instance sample_runtime.

(** Document "a" of [fan] has three links; added again under the same id
    it has none, and "b1" is where it was. *)
Lemma add_document_lookup_witness :
  let res := add_document "a" "a.md" None fan in
  length (links_of (objects fan) 1%positive) = 3%nat
  /\ get_document "a" (snd res) = (Ok (Some 6%positive), snd res)
  /\ links_of (objects (snd res)) 6%positive = []
  /\ nodes (braid (snd res)) !! "b1" = Some 2%positive.
Proof.
  destruct (add_document_lookup fan "a" "a.md" None) as (_ & Hget & _ & Hl & Hid & _).
  split; [vm_compute; reflexivity |].
  split; [exact Hget |]. split; [exact Hl |].
  rewrite (Hid "b1") by discriminate. vm_compute. reflexivity.
Defined.

Lemma link_documents_missing_endpoint_witness :
  link_documents 1000 "a" "missing" "references" 1 None two_docs
  = (Ok None, two_docs).
Proof.
  apply (link_documents_missing_endpoint 1000 two_docs "a" "missing" "references"
           1 None).
  right. vm_compute. reflexivity.
Defined.

Lemma link_documents_directional_witness :
  let res := link_documents 1000 "a" "b" "references" (3 # 2) None two_docs in
  fst res = Ok (Some {| source := 1; target := 2; link_type := "references";
                        weight := 1; metadata := [] |})
  /\ length (links_of (objects (snd res)) 1%positive) = 1%nat.
Proof.
  assert (Hn : exists n, objects two_docs !! 1%positive = Some n /\ links n = [])
    by (vm_compute; eauto).
  destruct Hn as [n [Hn Hl]].
  destruct (link_documents_directional 999 two_docs "a" "b" "references" (3 # 2)
              None 1%positive 2%positive n) as (Hres & Hlinks & _);
    try (vm_compute; reflexivity); [exact Hn |].
  split; [exact Hres |]. rewrite Hlinks, Hl. reflexivity.
Defined.

Lemma find_related_sorted_witness :
  exists res : list (loc * Q),
    find_related_documents "a" (Some "references") (1 # 2) fan = (Ok res, fan)
    /\ length res = 3%nat.
Proof.
  destruct (find_related_sorted fan "a" 1%positive (Some "references") (1 # 2))
    as (res & Hres & Hperm & _); [vm_compute; reflexivity |].
  exists res. split; [exact Hres |].
  rewrite (Permutation_length Hperm). vm_compute. reflexivity.
Defined.

Lemma shortest_path_sound_witness :
  exists p : list loc,
    get_shortest_path "a" "d" 3 fan = (Ok (Some p), fan)
    /\ hd_error p = Some 1%positive /\ last p = Some 5%positive
    /\ is_path (objects fan) p = true /\ (length p <= 5)%nat.
Proof.
  assert (Hrun : get_shortest_path "a" "d" 3 fan
                 = (Ok (Some [1; 4; 5]%positive), fan))
    by (vm_compute; reflexivity).
  exists [1; 4; 5]%positive. split; [exact Hrun |].
  destruct (shortest_path_sound fan fan "a" "d" 3 [1; 4; 5]%positive Hrun)
    as (_ & s & t & Hs & Ht & Hhd & Hlast & Hpath & Hlen).
  repeat split; assumption.
Defined.

Lemma shortest_path_direct_link_witness :
  get_shortest_path "a" "b3" 0 fan = (Ok (Some [1; 4]%positive), fan).
Proof.
  apply (shortest_path_direct_link fan "a" "b3" 0 1%positive 4%positive);
    try (vm_compute; reflexivity); try discriminate.
  exists {| source := 1; target := 4; link_type := "references"; weight := 1;
            metadata := [] |}.
  split; [vm_compute; auto | reflexivity].
Defined.

Lemma add_tag_not_indexed_witness :
  let w' := snd (add_tag 1%positive "Alpha" two_docs) in
  fst (has_tag 1%positive "Alpha" w') = Ok true
  /\ fst (find_documents_by_tag "Alpha" w') = Ok [].
Proof.
  assert (Hn : exists n, objects two_docs !! 1%positive = Some n)
    by (vm_compute; eauto).
  destruct Hn as [n Hn].
  destruct (add_tag_not_indexed two_docs 1%positive n "Alpha" "Alpha" "Alpha" Hn
              eq_refl) as (Hhas & _ & Hfind).
  split; [exact Hhas |]. rewrite Hfind. vm_compute. reflexivity.
Defined.

Lemma embedding_round_trip_witness :
  fst (get_embedding 1%positive "minilm"
         (snd (add_embedding 1%positive "minilm" [1 # 2; 1 # 3] two_docs)))
  = Ok (Some [1 # 2; 1 # 3]).
Proof.
  assert (Hn : exists n, objects two_docs !! 1%positive = Some n)
    by (vm_compute; eauto).
  destruct Hn as [n Hn].
  exact (proj1 (embedding_round_trip two_docs 1%positive n "minilm"
                  [1 # 2; 1 # 3] Hn)).
Defined.

Lemma get_links_after_link_witness :
  let w' := snd (link_documents 1000 "a" "b" "references" 1 None two_docs) in
  (exists link, fst (get_links 1%positive (Some "references") w') = Ok [link])
  /\ fst (get_links 1%positive (Some "cites") w') = Ok [].
Proof.
  assert (Hn : exists n, objects two_docs !! 1%positive = Some n /\ links n = [])
    by (vm_compute; eauto).
  destruct Hn as [n [Hn Hl]].
  assert (Hbefore : forall asked,
             get_links 1%positive asked two_docs
             = (Ok (match asked with
                    | Some ty' =>
                        List.filter (fun link => String.eqb (link_type link) ty')
                                    (links n)
                    | None => links n
                    end), two_docs)).
  { intros asked. unfold get_links, get_world, bind, ret, links_of.
    rewrite Hn. destruct asked; reflexivity. }
  cbv zeta. split.
  - destruct (get_links_after_link 999 two_docs "a" "b" "references" 1 None
                1%positive 2%positive n (Some "references") eq_refl eq_refl Hn
                eq_refl) as (before & Hb & ->).
    rewrite Hbefore, Hl in Hb. injection Hb as <-. eexists. reflexivity.
  - destruct (get_links_after_link 999 two_docs "a" "b" "references" 1 None
                1%positive 2%positive n (Some "cites") eq_refl eq_refl Hn
                eq_refl) as (before & Hb & ->).
    rewrite Hbefore, Hl in Hb. injection Hb as <-. reflexivity.
Defined.

End MoreBraidWitnesses.

(** ** The execution ledger *)

Section MoreRegistryFacts.
Import Registry.

Lemma dict_get_set (k k' : string) (v : ExecutionRecord)
  (d : list (string * ExecutionRecord)) :
  dict_get k' (dict_set k v d) = if String.eqb k' k then Some v else dict_get k' d.
Proof.
  destruct (String.eqb_spec k' k) as [-> | Hne].
  - apply dict_get_set_eq.
  - apply dict_get_set_ne. congruence.
Qed.

Lemma dict_keys_set_present {V : Type} (k : string) (v v0 : V)
  (d : list (string * V)) :
  dict_get k d = Some v0 -> dict_keys (dict_set k v d) = dict_keys d.
Proof.
  induction d as [|[k' v'] d IH]; simpl; [discriminate |].
  destruct (String.eqb_spec k k') as [-> | Hne]; [reflexivity |].
  intros Hget. unfold dict_keys in *. simpl. rewrite (IH Hget). reflexivity.
Qed.

Lemma dict_set_absent {V : Type} (k : string) (v : V) (d : list (string * V)) :
  dict_get k d = None -> dict_set k v d = (d ++ [(k, v)])%list.
Proof.
  induction d as [|[k' v'] d IH]; simpl; [reflexivity |].
  destruct (String.eqb k k'); [discriminate |].
  intros Hget. rewrite (IH Hget). reflexivity.
Qed.

Lemma update_record_get (p k : string) (f : ExecutionRecord -> ExecutionRecord)
  (d : list (string * ExecutionRecord)) :
  dict_get k (update_record p f d)
  = if String.eqb k p then f <$> dict_get p d else dict_get k d.
Proof.
  unfold update_record. destruct (dict_get p d) as [r|] eqn:Hp.
  - rewrite dict_get_set. destruct (String.eqb_spec k p); reflexivity.
  - destruct (String.eqb_spec k p) as [-> | _]; [rewrite Hp |]; reflexivity.
Qed.

Lemma update_record_keys (p : string) (f : ExecutionRecord -> ExecutionRecord)
  (d : list (string * ExecutionRecord)) :
  dict_keys (update_record p f d) = dict_keys d.
Proof.
  unfold update_record. destruct (dict_get p d) eqn:Hp; [| reflexivity].
  eapply dict_keys_set_present. exact Hp.
Qed.

Lemma registry_saved (utcnow : string) (st : State) :
  registry (_save_records utcnow st) = registry st.
Proof. unfold _save_records. destruct (storage_path (registry st)); reflexivity. Qed.

Lemma start_execution_registry (clock : StartClock) (kernel_name doc_path : string)
  (input_metadata context : option dict) (parent : option string) (st : State) :
  let id := id_of (id_timestamp clock) (_next_execution_id (registry st)) in
  let res := start_execution clock kernel_name doc_path input_metadata context
               parent st in
  fst res = id
  /\ registry (snd res)
     = {| records :=
            dict_set id (started clock id kernel_name doc_path input_metadata
                           context parent)
              (with_child parent id (records (registry st)));
          storage_path := storage_path (registry st);
          _next_execution_id := _next_execution_id (registry st) + 1 |}.
Proof.
  unfold start_execution, _generate_execution_id, id_of, with_child, started.
  cbn zeta. cbn [fst snd]. split; [reflexivity |].
  rewrite registry_saved. unfold with_records.
  destruct parent as [p|]; cbn [registry records storage_path _next_execution_id];
    [| reflexivity].
  destruct (negb (String.eqb p "") && dict_mem p (records (registry st)));
    reflexivity.
Qed.

Lemma with_child_get (parent : option string) (child k : string)
  (recs : list (string * ExecutionRecord)) :
  dict_get k (with_child parent child recs)
  = (fun r => match parent with
              | Some p => if String.eqb k p && negb (String.eqb p "")
                          then append_child child r else r
              | None => r
              end) <$> dict_get k recs.
Proof.
  unfold with_child. destruct parent as [p|];
    [| destruct (dict_get k recs); reflexivity].
  unfold dict_mem. destruct (String.eqb p ""); cbn [negb andb].
  { rewrite andb_false_r. destruct (dict_get k recs); reflexivity. }
  rewrite andb_true_r. destruct (String.eqb k p) eqn:Hkp.
  - apply String.eqb_eq in Hkp. subst k.
    destruct (dict_get p recs) as [pr|] eqn:Hp.
    + rewrite update_record_get, String.eqb_refl, Hp. reflexivity.
    + rewrite Hp. reflexivity.
  - destruct (dict_get p recs) as [pr|].
    + rewrite update_record_get, Hkp. destruct (dict_get k recs); reflexivity.
    + destruct (dict_get k recs); reflexivity.
Qed.

Lemma with_child_keys (parent : option string) (child : string)
  (recs : list (string * ExecutionRecord)) :
  dict_keys (with_child parent child recs) = dict_keys recs.
Proof.
  unfold with_child. destruct parent as [p|]; [| reflexivity].
  destruct (negb (String.eqb p "") && dict_mem p recs); [| reflexivity].
  apply update_record_keys.
Qed.

(** *** The ids stay below the counter *)

Lemma load_record_below (rd : json) (reg : ExecutionRegistry) :
  ids_below_counter reg -> ids_below_counter (load_record rd reg).
Proof.
  intros Hinv. unfold load_record.
  destruct rd as [| | | | |data]; try exact Hinv.
  destruct (from_dict data) as [record| |]; try exact Hinv.
  intros id r n Hget Hparse. cbn [records _next_execution_id] in *.
  rewrite dict_get_set in Hget.
  destruct (String.eqb_spec id (execution_id record)) as [-> | _].
  - rewrite Hparse. lia.
  - specialize (Hinv id r n Hget Hparse).
    destruct (int16 (last_segment (execution_id record))); lia.
Qed.

Lemma load_records_below (l : list json) :
  forall reg : ExecutionRegistry,
    ids_below_counter reg ->
    ids_below_counter (fold_left (fun reg rd => load_record rd reg) l reg).
Proof.
  induction l as [|rd l IH]; intros reg Hinv; [exact Hinv |].
  cbn [fold_left]. apply IH, load_record_below, Hinv.
Qed.

Lemma init_below (path : option string) (content : option file_content) :
  ids_below_counter (registry (ExecutionRegistry_init path content)).
Proof.
  unfold ExecutionRegistry_init, _load_records. cbn [registry disk storage_path].
  assert (Hempty : ids_below_counter
                     {| records := []; storage_path := path;
                        _next_execution_id := 1 |})
    by (intros id r n Hget; discriminate Hget).
  destruct path as [path|]; [| exact Hempty].
  destruct content as [[|[| | | | |data]]|]; try exact Hempty.
  destruct (dict_get "records" data) as [[| | | |l|]|]; try exact Hempty.
  apply load_records_below, Hempty.
Qed.

Lemma start_execution_below (clock : StartClock) (kernel_name doc_path : string)
  (input_metadata context : option dict) (parent : option string) (st : State) :
  ids_below_counter (registry st) ->
  ids_below_counter
    (registry (snd (start_execution clock kernel_name doc_path input_metadata
                      context parent st))).
Proof.
  intros Hinv.
  destruct (start_execution_registry clock kernel_name doc_path input_metadata
              context parent st) as [_ ->].
  intros id r n Hget Hparse. cbn [records _next_execution_id] in *.
  rewrite dict_get_set in Hget.
  destruct (String.eqb_spec id (id_of (id_timestamp clock)
                                  (_next_execution_id (registry st)))) as [-> | _].
  - rewrite counter_of_id in Hparse. injection Hparse as <-. lia.
  - rewrite with_child_get in Hget.
    destruct (dict_get id (records (registry st))) as [r0|] eqn:Hr0;
      [| discriminate].
    specialize (Hinv id r0 n Hr0 Hparse). lia.
Qed.

Lemma update_below (id : string) (r0 r' : ExecutionRecord) (utcnow : string)
  (st : State) :
  dict_get id (records (registry st)) = Some r0 ->
  ids_below_counter (registry st) ->
  ids_below_counter
    (registry (_save_records utcnow (with_records (dict_set id r') st))).
Proof.
  intros Hid Hinv. rewrite registry_saved. unfold with_records.
  intros k r n Hget Hparse. cbn [registry records _next_execution_id] in *.
  rewrite dict_get_set in Hget.
  destruct (String.eqb_spec k id) as [-> | _]; eauto.
Qed.

Lemma mapM_as_str (l : list string) : mapM as_str (map JStr l) = Some l.
Proof.
  induction l as [|x l IH]; [reflexivity |].
  cbn [map mapM]. rewrite IH. reflexivity.
Qed.

(** Without the key ["duration"], which [to_dict] adds last, the
    dictionary of a record is read back by [from_dict] as that record. *)
Theorem from_dict_without_duration :
  forall r : ExecutionRecord, from_dict (removelast (to_dict r)) = Loaded r.
Proof.
  intros [id kn dp t0 t1 st im out err ctx seal par ch me].
  unfold from_dict, to_dict. cbn [removelast].
  cbn [execution_id kernel_name doc_path start_time end_time status
       input_metadata output error context quantum_seal parent_execution_id
       child_executions metrics].
  assert (Hst : status_of_name (status_name st) = Some st) by (destruct st; reflexivity).
  cbn [dict_get String.eqb Ascii.eqb Bool.eqb]. rewrite Hst.
  cbn [dict_keys map fst forallb str_in existsb field_names required_fields
       dict_mem dict_get String.eqb Ascii.eqb Bool.eqb orb andb negb].
  unfold cls, kwarg.
  cbn [dict_get String.eqb Ascii.eqb Bool.eqb mbind option_bind as_str as_num
       as_obj as_str_list].
  rewrite mapM_as_str.
  destruct t1, out, err, seal, par; reflexivity.
Qed.

Lemma length_by_status (rs : list ExecutionRecord) :
  let count s := length (List.filter (fun r => status_eqb (status r) s) rs) in
  length rs
  = (count COMPLETED + count FAILED + count RUNNING + count PENDING
     + count CANCELLED)%nat.
Proof.
  induction rs as [|x rs IH]; [reflexivity |].
  cbn zeta in *. cbn [List.filter length].
  destruct (status x); cbn [status_eqb status_name String.eqb Ascii.eqb
    Bool.eqb length]; lia.
Qed.

(** The counts of [get_execution_stats] on a registry with records: one
    count per status for COMPLETED, FAILED, RUNNING and PENDING, and a total
    that also counts the CANCELLED records, for which there is no key. *)
Theorem stats_counts :
  forall (st : State) (k : string) (r : ExecutionRecord)
         (rest : list (string * ExecutionRecord)),
    records (registry st) = (k, r) :: rest ->
    let stats := get_execution_stats st in
    let count s :=
      length (List.filter (fun r => status_eqb (status r) s)
                          (dict_values (records (registry st)))) in
    dict_get "completed" stats = Some (JInt (count COMPLETED))
    /\ dict_get "failed" stats = Some (JInt (count FAILED))
    /\ dict_get "running" stats = Some (JInt (count RUNNING))
    /\ dict_get "pending" stats = Some (JInt (count PENDING))
    /\ dict_get "cancelled" stats = None
    /\ dict_get "total" stats
       = Some (JInt (count COMPLETED + count FAILED + count RUNNING
                     + count PENDING + count CANCELLED)).
Proof.
  intros st k r rest Hrecs stats count. subst stats count.
  unfold get_execution_stats. rewrite Hrecs.
  remember (dict_values ((k, r) :: rest)) as rs eqn:Hrs.
  destruct rs as [|x rs]; [discriminate Hrs |].
  cbv beta iota zeta. repeat split.
  cbn [dict_get String.eqb Ascii.eqb Bool.eqb].
  do 2 f_equal. apply (length_by_status (x :: rs)).
Qed.

(** *** The trace of a two-level tree *)

Lemma find_root_of_root (fuel : nat) (recs : list (string * ExecutionRecord))
  (r : ExecutionRecord) :
  is_root recs r -> find_root fuel recs r = Some r.
Proof.
  unfold is_root. intros Hroot.
  destruct fuel; cbn [find_root]; destruct (parent_execution_id r) as [p|];
    try reflexivity;
    (destruct Hroot as [-> | ->]; [reflexivity |]);
    destruct (String.eqb p ""); reflexivity.
Qed.

Lemma traverse_leaves (recs : list (string * ExecutionRecord))
  (kids : list ExecutionRecord) :
  forall (fuel : nat) (stack : list (ExecutionRecord * bool))
         (trace : list ExecutionRecord),
    Forall (fun r => child_executions r = []) kids ->
    traverse (2 * length kids + fuel) recs
      (map (fun r => (r, false)) kids ++ stack) trace
    = traverse fuel recs stack (trace ++ kids).
Proof.
  induction kids as [|kid kids IH]; intros fuel stack trace Hleaves.
  - cbn [length map app]. rewrite app_nil_r. reflexivity.
  - apply Forall_cons in Hleaves. destruct Hleaves as [Hkid Hleaves].
    replace (2 * length (kid :: kids) + fuel)%nat
      with (S (S (2 * length kids + fuel))) by (cbn [length]; lia).
    cbn [map app traverse]. rewrite Hkid.
    change (omap (fun child_id => dict_get child_id recs) []) with (@nil ExecutionRecord).
    cbn [map app].
    rewrite IH by exact Hleaves. rewrite <- app_assoc. reflexivity.
Qed.

(** [get_execution_trace] on a tree of two levels, a root whose children
    have no children themselves: called with the id of the root or of any of
    the children, it returns the root followed by those of its children that
    are in the registry, in the order in which they were registered. Both
    loops end within [2 * (number of children + 1)] iterations. *)
Theorem trace_of_two_levels :
  forall (st : State) (fuel : nat) (id : string) (root : ExecutionRecord),
    get_execution id st = Some root ->
    is_root (records (registry st)) root ->
    let kids := omap (fun c => dict_get c (records (registry st)))
                     (child_executions root) in
    Forall (fun r => child_executions r = []) kids ->
    (2 * (length kids + 1) <= fuel)%nat ->
    get_execution_trace fuel id st = Some (root :: kids)
    /\ forall (cid : string) (child : ExecutionRecord),
        get_execution cid st = Some child ->
        parent_execution_id child = Some id -> id <> "" ->
        get_execution_trace fuel cid st = Some (root :: kids).
Proof.
  intros st fuel id root Hid Hroot kids Hleaves Hfuel.
  unfold get_execution in *.
  assert (Htrav : traverse fuel (records (registry st)) [(root, false)] []
                  = Some (root :: kids)).
  { replace fuel with (S (S (2 * length kids + (fuel - 2 * (length kids + 1)))))
      by lia.
    cbn [traverse]. fold kids.
    rewrite traverse_leaves by exact Hleaves.
    destruct (fuel - 2 * (length kids + 1))%nat; reflexivity. }
  split.
  - unfold get_execution_trace. rewrite Hid, find_root_of_root by exact Hroot.
    exact Htrav.
  - intros cid child Hcid Hparent Hne.
    unfold get_execution_trace. rewrite Hcid.
    destruct fuel as [|fuel']; [lia |].
    cbn [find_root]. rewrite Hparent.
    destruct (String.eqb_spec id "") as [| _]; [contradiction |].
    rewrite Hid, find_root_of_root by exact Hroot. exact Htrav.
Qed.

Section Reach.
Context `{PyRuntime}.

Lemma reachable_below (st : State) :
  Reachable st -> ids_below_counter (registry st).
Proof.
  induction 1 as [path disk _ | st clock k d im ctx par _ IH
                  | st id out mtr now sealed utcnow _ IH
                  | st id err mtr now utcnow _ IH
                  | st id now utcnow _ IH].
  - apply init_below.
  - apply start_execution_below, IH.
  - unfold complete_execution.
    destruct (dict_get id (records (registry st))) as [r0|] eqn:Hid; [| exact IH].
    destruct (duration _); cbn [snd]; eapply update_below; eassumption.
  - unfold fail_execution.
    destruct (dict_get id (records (registry st))) as [r0|] eqn:Hid; [| exact IH].
    eapply update_below; eassumption.
  - unfold cancel_execution.
    destruct (dict_get id (records (registry st))) as [r0|] eqn:Hid; [| exact IH].
    destruct (status r0); try exact IH; eapply update_below; eassumption.
Qed.

(** On a registry constructed over a file that the typed records can hold
    and then driven by the operations, [start_execution] returns an id
    that no record of the registry has. The registry then holds one record
    more, stored under that id after all the others: it is RUNNING, without
    end time, output, error, seal or children, and carries the given kernel
    name, document path and parent id. *)
Theorem start_execution_adds_record :
  forall (st : State) (clock : StartClock) (kernel_name doc_path : string)
         (input_metadata context : option dict) (parent : option string),
    Reachable st ->
    let res := start_execution clock kernel_name doc_path input_metadata context
                 parent st in
    get_execution (fst res) st = None
    /\ dict_keys (records (registry (snd res)))
       = (dict_keys (records (registry st)) ++ [fst res])%list
    /\ get_execution (fst res) (snd res)
       = Some {| execution_id := fst res; kernel_name := kernel_name;
                 doc_path := doc_path; start_time := started_at clock;
                 end_time := None; status := RUNNING;
                 input_metadata := or_empty input_metadata; output := None;
                 error := None; context := or_empty context;
                 quantum_seal := None; parent_execution_id := parent;
                 child_executions := []; metrics := [] |}.
Proof.
  intros st clock kernel_name doc_path input_metadata context parent Hreach res.
  subst res.
  destruct (start_execution_registry clock kernel_name doc_path input_metadata
              context parent st) as [-> Hreg].
  set (id := id_of (id_timestamp clock) (_next_execution_id (registry st))) in *.
  assert (Hfresh : dict_get id (records (registry st)) = None).
  { destruct (dict_get id (records (registry st))) as [r|] eqn:Hr; [| reflexivity].
    pose proof (reachable_below st Hreach id r _ Hr (counter_of_id _ _)). lia. }
  unfold get_execution. rewrite Hreg. cbn [records].
  split; [exact Hfresh |]. split.
  - rewrite dict_set_absent by (rewrite with_child_get, Hfresh; reflexivity).
    unfold dict_keys. rewrite map_app. fold (dict_keys (with_child parent id
      (records (registry st)))). rewrite with_child_keys. reflexivity.
  - rewrite dict_get_set_eq. reflexivity.
Qed.

(** On such a registry, [start_execution] with a parent id that is in the
    registry appends the new id to the parent's list of children; every other record that was
    in the registry is still there, unchanged. An empty or unknown parent id
    registers nothing. *)
Theorem start_execution_registers_child :
  forall (st : State) (clock : StartClock) (kernel_name doc_path : string)
         (input_metadata context : option dict) (parent : option string)
         (k : string) (r : ExecutionRecord),
    Reachable st ->
    get_execution k st = Some r ->
    let res := start_execution clock kernel_name doc_path input_metadata context
                 parent st in
    get_execution k (snd res)
    = Some (match parent with
            | Some p => if String.eqb k p && negb (String.eqb p "")
                        then append_child (fst res) r else r
            | None => r
            end).
Proof.
  intros st clock kernel_name doc_path input_metadata context parent k r Hreach
    Hk res. subst res.
  destruct (start_execution_registry clock kernel_name doc_path input_metadata
              context parent st) as [-> Hreg].
  set (id := id_of (id_timestamp clock) (_next_execution_id (registry st))) in *.
  unfold get_execution in *. rewrite Hreg. cbn [records].
  rewrite dict_get_set.
  destruct (String.eqb_spec k id) as [-> | _].
  - pose proof (reachable_below st Hreach id r _ Hk (counter_of_id _ _)). lia.
  - rewrite with_child_get, Hk. reflexivity.
Qed.

Lemma update_only_changes (id : string) (r0 r' : ExecutionRecord)
  (utcnow : string) (st : State) :
  dict_get id (records (registry st)) = Some r0 ->
  only_changes id st (_save_records utcnow (with_records (dict_set id r') st)).
Proof.
  intros Hid. unfold only_changes. rewrite registry_saved. unfold with_records.
  cbn [registry records storage_path _next_execution_id].
  repeat split.
  - intros id' Hne. apply dict_get_set_ne. congruence.
  - eapply dict_keys_set_present. exact Hid.
Qed.

Lemma only_changes_refl (id : string) (st : State) : only_changes id st st.
Proof. unfold only_changes. auto. Qed.

(** [complete_execution], [fail_execution] and [cancel_execution] touch
    no record but the one they are called for: every other record, the ids
    and their order, the storage path and the id counter are as before. *)
Theorem updates_change_one_record :
  forall (st : State) (id err : string) (out : dict) (mtr : option dict)
         (now sealed_at : Q) (utcnow : string),
    only_changes id st (snd (complete_execution id out mtr now sealed_at utcnow st))
    /\ only_changes id st (fail_execution id err mtr now utcnow st)
    /\ only_changes id st (cancel_execution id now utcnow st).
Proof.
  intros st id err out mtr now sealed_at utcnow.
  unfold complete_execution, fail_execution, cancel_execution.
  destruct (dict_get id (records (registry st))) as [r0|] eqn:Hid;
    [| split; [| split]; apply only_changes_refl].
  split; [| split].
  - destruct (duration _); cbn [snd]; eapply update_only_changes; exact Hid.
  - eapply update_only_changes; exact Hid.
  - destruct (status r0); try apply only_changes_refl;
      eapply update_only_changes; exact Hid.
Qed.

(** An id that is not in the registry is ignored by [complete_execution],
    [fail_execution] and [cancel_execution]: nothing is raised, and neither
    the registry nor its file changes. *)
Theorem unknown_id_ignored :
  forall (st : State) (id err : string) (out : dict) (mtr : option dict)
         (now sealed_at : Q) (utcnow : string),
    get_execution id st = None ->
    complete_execution id out mtr now sealed_at utcnow st = (Ok tt, st)
    /\ fail_execution id err mtr now utcnow st = st
    /\ cancel_execution id now utcnow st = st.
Proof.
  intros st id err out mtr now sealed_at utcnow Hid.
  unfold get_execution in Hid.
  unfold complete_execution, fail_execution, cancel_execution. rewrite Hid.
  repeat split.
Qed.

Lemma storage_path_op (id : string) (st st' : State) :
  only_changes id st st' ->
  storage_path (registry st') = storage_path (registry st).
Proof. intros (_ & _ & Hp & _). exact Hp. Qed.





End Reach.

End MoreRegistryFacts.

Section MoreRegistryWitnesses.
Import Registry RegistryExamples.
Local Existing Instance sample_runtime.

(** Of the three records of [family_settled] one is running and one has
    failed; the cancelled one is counted in the total only. *)
Lemma stats_counts_witness :
  let stats := get_execution_stats family_settled in
  dict_get "running" stats = Some (JInt 1)
  /\ dict_get "failed" stats = Some (JInt 1)
  /\ dict_get "cancelled" stats = None
  /\ dict_get "total" stats = Some (JInt 3).
Proof.
  assert (Hrecs : exists k r rest,
             records (registry family_settled) = (k, r) :: rest)
    by (vm_compute; eauto).
  destruct Hrecs as (k & r & rest & Hrecs).
  pose proof (stats_counts family_settled k r rest Hrecs) as Hs.
  cbv zeta in Hs. destruct Hs as (_ & Hf & Hr & _ & Hc & Ht).
  cbv zeta. rewrite Hr, Hf, Hc, Ht. vm_compute. repeat split.
Defined.

(** The trace asked for the second child of [family] is the parent and
    its two children. *)
Lemma trace_of_two_levels_witness :
  (map execution_id <$> get_execution_trace 6 "ex-18bcfe56800-3" family)
  = Some ["ex-18bcfe56800-1"; "ex-18bcfe56800-2"; "ex-18bcfe56800-3"].
Proof.
  assert (Hroot : exists root,
             get_execution "ex-18bcfe56800-1" family = Some root
             /\ parent_execution_id root = None
             /\ child_executions root = ["ex-18bcfe56800-2"; "ex-18bcfe56800-3"])
    by (vm_compute; eauto).
  destruct Hroot as (root & Hget & Hpar & Hkids).
  assert (Hchild : exists child,
             get_execution "ex-18bcfe56800-3" family = Some child
             /\ parent_execution_id child = Some "ex-18bcfe56800-1")
    by (vm_compute; eauto).
  destruct Hchild as (child & Hc & Hcp).
  assert (Hroot : is_root (records (registry family)) root)
    by (unfold is_root; rewrite Hpar; exact I).
  assert (Hleaves : Forall (fun r => child_executions r = [])
                      (omap (fun c => dict_get c (records (registry family)))
                            (child_executions root)))
    by (rewrite Hkids; vm_compute; repeat constructor).
  assert (Hfuel : (2 * (length (omap (fun c => dict_get c (records (registry family)))
                                     (child_executions root)) + 1) <= 6)%nat)
    by (rewrite Hkids; vm_compute; lia).
  destruct (trace_of_two_levels family 6 "ex-18bcfe56800-1" root Hget Hroot
              Hleaves Hfuel) as [_ Hall].
  rewrite (Hall "ex-18bcfe56800-3" child Hc Hcp) by discriminate.
  cbn [fmap option_fmap option_map]. rewrite Hkids.
  assert (Hid : execution_id root = "ex-18bcfe56800-1").
  { revert Hget. vm_compute. intros [= <-]. reflexivity. }
  cbn [map]. rewrite Hid. vm_compute. reflexivity.
Defined.

(** On the registry loaded from [stored_file] the counter stands at
    eleven, and the new record comes after the loaded one. *)
Lemma start_execution_adds_record_witness :
  let res := start_execution clock0 "note_kernel" "docs/b.md" None None None
               reloaded_registry in
  fst res = "ex-18bcfe56800-b"
  /\ get_execution (fst res) reloaded_registry = None
  /\ dict_keys (records (registry (snd res)))
     = ["ex-18bcfe00000-a"; "ex-18bcfe56800-b"].
Proof.
  cbv zeta.
  assert (Htyped : typed_file (Some stored_file)).
  { unfold typed_file, stored_file.
    cbn [dict_get String.eqb Ascii.eqb Bool.eqb].
    constructor; [vm_compute; discriminate | constructor]. }
  destruct (start_execution_adds_record reloaded_registry clock0 "note_kernel"
              "docs/b.md" None None None
              (reach_init (Some "registry.json") (Some stored_file) Htyped))
    as (Hfresh & Hkeys & _).
  split; [vm_compute; reflexivity |]. split; [exact Hfresh |].
  rewrite Hkeys. vm_compute. reflexivity.
Defined.

Lemma start_execution_registers_child_witness :
  (child_executions
   <$> get_execution "ex-18bcfe56800-1"
         (snd (start_execution clock0 "child_kernel" "docs/a.md" None None
                 (Some "ex-18bcfe56800-1") (snd one_running))))
  = Some ["ex-18bcfe56800-2"].
Proof.
  assert (Hget : exists r,
             get_execution "ex-18bcfe56800-1" (snd one_running) = Some r
             /\ child_executions r = [])
    by (vm_compute; eauto).
  destruct Hget as (r & Hr & Hkids).
  rewrite (start_execution_registers_child (snd one_running) clock0
             "child_kernel" "docs/a.md" None None (Some "ex-18bcfe56800-1")
             "ex-18bcfe56800-1" r
             (reach_start _ _ _ _ _ _ _ (reach_init _ None I)) Hr).
  cbn [String.eqb Ascii.eqb Bool.eqb andb negb fmap option_fmap option_map].
  unfold append_child. cbn [child_executions]. rewrite Hkids.
  vm_compute. reflexivity.
Defined.

Lemma unknown_id_ignored_witness :
  fail_execution "ex-0-0" "boom" None 1700000002 "2023-11-14T22:13:22" one_failed
  = one_failed.
Proof.
  refine (proj1 (proj2 (unknown_id_ignored one_failed "ex-0-0" "boom" [] None
                          1700000002 1700000003 "2023-11-14T22:13:22" _))).
  vm_compute. reflexivity.
Defined.



End MoreRegistryWitnesses.

(** ** The chain sync *)

Section MoreNetSyncFacts.
Import NetSync.

Lemma first_entry_with_prefix (h : string) (l l' : list json) (e : dict) :
  first_entry_with h l = Ok (Some e) ->
  first_entry_with h (l ++ l') = Ok (Some e).
Proof.
  induction l as [|x l IH]; simpl; [discriminate |].
  destruct x as [| | | |?|d]; try discriminate.
  destruct (dict_get "registry_hash" d) as [[| | |h'| |]|]; auto.
  destruct (String.eqb h' h); auto.
Qed.

Lemma append_entry_spec (x : json) (sc sc' : dict) (h : string) :
  append_entry x sc = Ok sc' ->
  entries_of sc' = (entries_of sc ++ [x])%list
  /\ existing_entry h sc' = first_entry_with h (entries_of sc ++ [x])
  /\ existing_entry h sc = first_entry_with h (entries_of sc).
Proof.
  unfold append_entry, existing_entry, entries_of.
  destruct (dict_get "entries" sc) as [[| | |?|l|?]|]; try discriminate;
    intros [= <-]; rewrite dict_get_set_eq; repeat split.
Qed.

Section Sync.
Context `{PyRuntime}.

(** The three ways [sync_registry] ends: it fails and has written nothing;
    it finds the hash in the log and writes nothing; or it appends the new
    entry, which the verification then finds. *)
Lemma sync_registry_cases (self : ScrollChainSync) (utcnow : string)
  (force : bool) (fs : FileSystem) :
  let r := sync_registry self utcnow force fs in
  (fst (fst r) = false /\ snd r = fs /\ snd (fst r) <> VerificationFailed)
  \/ ((exists t, fst r = (true, AlreadySynchronized t))
      /\ snd r = fs /\ force = false
      /\ verify_sync self fs = true)
  \/ (fst r = (true, Synchronized utcnow)
      /\ log_entries (snd r) = (log_entries fs ++ [sync_entry self utcnow fs])%list
      /\ registry_file (snd r) = registry_file fs
      /\ verify_sync self (snd r) = true
      /\ (force = true \/ verify_sync self fs = false)).
Proof.
  cbn zeta. unfold sync_registry, sync_entry.
  set (h := _compute_registry_hash self fs).
  destruct (String.eqb h "") eqn:Hh; [left; repeat split; discriminate |].
  set (entry := [("registry_hash", JStr h); ("timestamp", JStr utcnow);
                 ("registry_path", JStr (abspath (registry_path self)))]).
  assert (He : dict_get "registry_hash" entry = Some (JStr h)) by reflexivity.
  assert (Hwritten : forall sc',
             existing_entry h sc' = first_entry_with h (entries_of sc') ->
             (exists e, first_entry_with h (entries_of sc') = Ok (Some e)) ->
             verified self utcnow (write_scrollchain sc' fs)
             = ((true, Synchronized utcnow), write_scrollchain sc' fs)
             /\ verify_sync self (write_scrollchain sc' fs) = true).
  { intros sc' Hex (e & Hfound).
    assert (Hv : verify_sync self (write_scrollchain sc' fs) = true).
    { unfold verify_sync.
      change (_compute_registry_hash self (write_scrollchain sc' fs)) with h.
      rewrite Hh. cbn [scrollchain_file write_scrollchain].
      rewrite Hex, Hfound. reflexivity. }
    unfold verified. rewrite Hv. split; reflexivity. }
  destruct (scrollchain_file fs) as [content|] eqn:Hfile.
  - set (sc := match content with Json (JObj d) => d | _ => _ end).
    assert (Hlog : log_entries fs = entries_of sc).
    { unfold log_entries. rewrite Hfile. subst sc.
      destruct content as [|[| | | | |d]]; reflexivity. }
    assert (Hverify : verify_sync self fs
                      = match content with
                        | Json (JObj d) =>
                            match existing_entry h d with
                            | Ok (Some _) => true
                            | _ => false
                            end
                        | _ => false
                        end).
    { unfold verify_sync. fold h. rewrite Hh, Hfile.
      destruct content as [|[| | | | |d]]; reflexivity. }
    assert (Happend : forall found,
               existing_entry h sc = Ok found ->
               force = true \/ found = None ->
               match append_entry (JObj entry) sc with
               | Raise e => ((false, SynchronizationFailed e), fs)
               | Ok sc' => verified self utcnow (write_scrollchain sc' fs)
               end = sync_registry self utcnow force fs ->
               (fst (fst (sync_registry self utcnow force fs)) = false
                /\ snd (sync_registry self utcnow force fs) = fs
                /\ snd (fst (sync_registry self utcnow force fs))
                   <> VerificationFailed)
               \/ (fst (sync_registry self utcnow force fs)
                   = (true, Synchronized utcnow)
                   /\ log_entries (snd (sync_registry self utcnow force fs))
                      = (log_entries fs ++ [JObj entry])%list
                   /\ registry_file (snd (sync_registry self utcnow force fs))
                      = registry_file fs
                   /\ verify_sync self (snd (sync_registry self utcnow force fs))
                      = true
                   /\ (force = true \/ verify_sync self fs = false))).
    { intros found Hex Hwhy <-.
      destruct (append_entry (JObj entry) sc) as [sc'|err] eqn:Happ;
        [| left; repeat split; discriminate].
      right.
      destruct (append_entry_spec _ _ _ h Happ) as (Hent & Hex' & Hex0).
      assert (Hfound : exists e,
                 first_entry_with h (entries_of sc') = Ok (Some e)).
      { rewrite Hent. rewrite Hex0 in Hex. destruct found as [e|].
        - exists e. apply first_entry_with_prefix. exact Hex.
        - exists entry. apply first_entry_with_app; assumption. }
      rewrite <- Hent in Hex'.
      destruct (Hwritten sc' Hex' Hfound) as [-> Hv].
      cbn [fst snd]. split; [reflexivity |]. split.
      { unfold log_entries at 1. cbn [scrollchain_file write_scrollchain].
        rewrite Hent, Hlog. reflexivity. }
      split; [reflexivity |]. split; [exact Hv |].
      destruct Hwhy as [-> | ->]; [left; reflexivity | right].
      rewrite Hverify. subst sc.
      destruct content as [|[| | | | |d]]; try reflexivity. rewrite Hex.
      reflexivity. }
    unfold sync_registry in Happend. fold h in Happend. rewrite Hh, Hfile in Happend.
    fold entry sc in Happend.
    destruct (existing_entry h sc) as [[e|]|err] eqn:Hex.
    + pose proof (existing_entry_found _ _ _ Hex) as Hreg.
      destruct e as [|b e]; [discriminate |].
      destruct force.
      * destruct (Happend _ eq_refl (or_introl eq_refl) eq_refl) as [Hl | Hr];
          [left; exact Hl | right; right; exact Hr].
      * destruct (dict_get "timestamp" (b :: e)) as [t|];
          [| left; repeat split; discriminate].
        right. left. split; [exists t; reflexivity |]. repeat split.
        rewrite Hverify.
        assert (Hc : content = Json (JObj sc)).
        { subst sc. destruct content as [|[| | | | |d]]; try discriminate;
            reflexivity. }
        rewrite Hc, Hex. reflexivity.
    + destruct force;
        (destruct (Happend _ eq_refl (or_intror eq_refl) eq_refl) as [Hl | Hr];
         [left; exact Hl | right; right; exact Hr]).
    + left. repeat split; discriminate.
  - right. right.
    set (sc' := [("version", JStr "1.0"); ("created_at", JStr utcnow);
                 ("entries", JArr [JObj entry])]).
    assert (Hfound : first_entry_with h (entries_of sc') = Ok (Some entry)).
    { cbn. rewrite String.eqb_refl. reflexivity. }
    destruct (Hwritten sc' eq_refl (ex_intro _ entry Hfound)) as [-> Hv].
    cbn [fst snd]. split; [reflexivity |]. split.
    { unfold log_entries. rewrite Hfile. reflexivity. }
    split; [reflexivity |]. split; [exact Hv |]. right.
    unfold verify_sync. fold h. rewrite Hh, Hfile. reflexivity.
Qed.

(** When [sync_registry] reports success, the registry's hash is in
    the log it leaves: [verify_sync] holds on the resulting files, whether
    the entry was found or was appended. *)
Theorem sync_success_is_verified (self : ScrollChainSync) (utcnow : string)
  (force : bool) (fs : FileSystem) :
  fst (fst (sync_registry self utcnow force fs)) = true ->
  verify_sync self (snd (sync_registry self utcnow force fs)) = true.
Proof.
  intros Hok.
  destruct (sync_registry_cases self utcnow force fs)
    as [(Hf & _) | [(_ & -> & _ & Hv) | (_ & _ & _ & Hv & _)]];
    [congruence | exact Hv | exact Hv].
Qed.

(** *** On the disk, with two different paths *)









End Sync.

(** *** The latest entry *)

Lemma string_leb_trans (a b c : string) :
  String.leb a b = true -> String.leb b c = true -> String.leb a c = true.
Proof.
  unfold String.leb. revert b c.
  induction a as [|x a IH]; intros [|y b] [|z c]; simpl; try easy.
  specialize (IH b c). unfold Ascii.compare.
  destruct (N.compare_spec (N_of_ascii x) (N_of_ascii y)) as [Hxy|Hxy|Hxy],
           (N.compare_spec (N_of_ascii y) (N_of_ascii z)) as [Hyz|Hyz|Hyz],
           (N.compare_spec (N_of_ascii x) (N_of_ascii z)) as [Hxz|Hxz|Hxz];
    try easy; lia.
Qed.

Lemma string_leb_refl (a : string) : String.leb a a = true.
Proof. destruct (String.leb_total a a); assumption. Qed.

Lemma head_insert_latest (x : string * json) (l : list (string * json)) :
  head (insert_latest x l)
  = Some match head l with
         | Some y => if String.leb (fst y) (fst x) then x else y
         | None => x
         end.
Proof.
  destruct l as [|y l]; [reflexivity |]. simpl.
  destruct (String.leb (fst y) (fst x)); reflexivity.
Qed.

Lemma sorted_latest_nil (l : list (string * json)) :
  head (sorted_latest l) = None -> l = [].
Proof.
  destruct l as [|x l]; [reflexivity |].
  unfold sorted_latest. simpl. rewrite head_insert_latest. discriminate.
Qed.

(** The head of the sorted list is an element with the largest key. *)
Lemma head_sorted_latest (l : list (string * json)) (x : string * json) :
  head (sorted_latest l) = Some x ->
  In x l /\ forall y, In y l -> String.leb (fst y) (fst x) = true.
Proof.
  revert x. induction l as [|a l IH]; intros x; [discriminate |].
  change (sorted_latest (a :: l)) with (insert_latest a (sorted_latest l)).
  rewrite head_insert_latest.
  destruct (head (sorted_latest l)) as [y|] eqn:Hhead.
  - destruct (IH y eq_refl) as [Hin Hmax].
    destruct (String.leb (fst y) (fst a)) eqn:Hya; intros [= <-].
    + split; [left; reflexivity |].
      intros z [<- | Hz]; [apply string_leb_refl |].
      eapply string_leb_trans; [apply Hmax, Hz | exact Hya].
    + split; [right; exact Hin |].
      intros z [Hz | Hz]; [subst z | apply Hmax, Hz].
      destruct (String.leb_total (fst y) (fst a)) as [Hle | Hle];
        [congruence | exact Hle].
  - intros [= <-]. apply sorted_latest_nil in Hhead as ->.
    split; [left; reflexivity |].
    intros z [<- | []]. apply string_leb_refl.
Qed.

Lemma keyed_spec (entries : list json) (ks : list (json * json)) :
  keyed entries = Ok ks ->
  Forall2 (fun e k => exists d, e = JObj d /\ k = (timestamp_of d, JObj d))
          entries ks.
Proof.
  revert ks. induction entries as [|e entries IH]; simpl; intros ks.
  - intros [= <-]. constructor.
  - destruct e as [| | | |?|d]; try discriminate.
    destruct (keyed entries) as [ks'|]; [| discriminate].
    intros [= <-]. constructor; [exists d; split; reflexivity | apply IH; reflexivity].
Qed.

(** When the log has entries and they are all dicts whose timestamps are
    strings (or there is one entry only), the entry returned is one of the
    log with the largest timestamp. *)
Lemma latest_of_entries (entries : list json) (ks : list (json * json))
  (e : json) :
  keyed entries = Ok ks ->
  match ks with
  | [] => None
  | [(_, entry)] => Some entry
  | _ => sks ← mapM string_key ks; snd <$> head (sorted_latest sks)
  end = Some e ->
  In e entries
  /\ exists d, e = JObj d
     /\ forall d' s s', In (JObj d') entries ->
          timestamp_of d = JStr s -> timestamp_of d' = JStr s' ->
          String.leb s' s = true.
Proof.
  intros Hkeyed Hlatest. apply keyed_spec in Hkeyed.
  assert (Hmany : (sks ← mapM string_key ks; snd <$> head (sorted_latest sks))
                  = Some e ->
                  In e entries
                  /\ exists d, e = JObj d
                     /\ forall d' s s', In (JObj d') entries ->
                          timestamp_of d = JStr s -> timestamp_of d' = JStr s' ->
                          String.leb s' s = true).
  { clear Hlatest.
    destruct (mapM string_key ks) as [sks|] eqn:Hsks; [| discriminate].
    cbn [mbind option_bind].
    destruct (head (sorted_latest sks)) as [x|] eqn:Hhead; [| discriminate].
    intros [= <-].
    destruct (head_sorted_latest _ _ Hhead) as [Hin Hmax].
    apply mapM_Some_1 in Hsks.
    apply list_elem_of_In, list_elem_of_lookup in Hin as [i Hi].
    destruct (Forall2_lookup_r _ _ _ _ _ Hsks Hi) as (k & Hk & Hkx).
    destruct (Forall2_lookup_r _ _ _ _ _ Hkeyed Hk) as (e & He & d & -> & ->).
    unfold string_key in Hkx. cbn [fst snd] in Hkx.
    destruct (timestamp_of d) as [| | |sd| |] eqn:Hd; try discriminate.
    injection Hkx as <-. cbn [fst snd] in *.
    split; [apply list_elem_of_In, list_elem_of_lookup; eauto |].
    exists d. split; [reflexivity |].
    intros d' s s' Hin' Hs Hd'.
    assert (s = sd) as -> by congruence.
    apply list_elem_of_In, list_elem_of_lookup in Hin' as [j Hj].
    destruct (Forall2_lookup_l _ _ _ _ _ Hkeyed Hj) as (k' & Hk' & d'' & [= <-] & ->).
    destruct (Forall2_lookup_l _ _ _ _ _ Hsks Hk') as (x' & Hx' & Hkx').
    unfold string_key in Hkx'. cbn [fst snd] in Hkx'. rewrite Hd' in Hkx'.
    injection Hkx' as <-.
    apply (Hmax (s', JObj d')), list_elem_of_In, list_elem_of_lookup.
    eauto. }
  destruct ks as [|[k entry] [|k2 ks]]; [discriminate | | exact (Hmany Hlatest)].
  injection Hlatest as ->.
  inversion Hkeyed as [|e0 k0 es0 ks0 Hhd Hrest]; subst.
  destruct Hhd as (d & -> & Hk). injection Hk as -> ->.
  inversion Hrest; subst.
  split; [left; reflexivity |]. exists d. split; [reflexivity |].
  intros d' s s' [[= <-] | []] Hs Hs'. rewrite Hs in Hs'. injection Hs' as <-.
  apply string_leb_refl.
Qed.

(** The entry that [get_latest_sync] returns is an entry of the log,
    and no entry of the log has a later timestamp: among string timestamps
    its own is the largest. *)
Theorem latest_sync_is_newest (self : ScrollChainSync) (fs : FileSystem)
  (e : json) :
  get_latest_sync self fs = Latest (Some e) ->
  In e (log_entries fs)
  /\ exists d, e = JObj d
     /\ forall d' s s', In (JObj d') (log_entries fs) ->
          timestamp_of d = JStr s -> timestamp_of d' = JStr s' ->
          String.leb s' s = true.
Proof.
  unfold get_latest_sync, log_entries, entries_of.
  destruct (scrollchain_file fs) as [[|[| | | | |scrollchain]]|];
    try discriminate.
  destruct (dict_get "entries" scrollchain) as [[|[|]|q|[|]|entries|[|]]|];
    try discriminate; [destruct (Qeq_bool q 0); discriminate |].
  destruct (keyed entries) as [ks|] eqn:Hkeyed;
    [| destruct entries; discriminate].
  intros Hlatest. apply (latest_of_entries entries ks e Hkeyed).
  destruct entries as [|e0 entries]; [discriminate |].
  destruct ks as [|[k entry] [|k2 ks]]; try discriminate.
  - injection Hlatest as <-. reflexivity.
  - cbn [mbind option_bind].
    destruct (mapM string_key ((k, entry) :: k2 :: ks)); [| discriminate].
    injection Hlatest as <-. reflexivity.
Qed.

(** [get_latest_sync] answers [None] on a log without entries only. *)
Lemma latest_none_empty (self : ScrollChainSync) (fs : FileSystem) :
  get_latest_sync self fs = Latest None -> log_entries fs = [].
Proof.
  unfold get_latest_sync, log_entries, entries_of.
  destruct (scrollchain_file fs) as [[|[| | | | |scrollchain]]|];
    try discriminate; try reflexivity.
  destruct (dict_get "entries" scrollchain) as [[|[|]|q|[|]|entries|[|]]|];
    try discriminate; try reflexivity.
  destruct (keyed entries) as [ks|] eqn:Hkeyed;
    [| destruct entries; discriminate].
  apply keyed_spec in Hkeyed.
  destruct entries as [|e0 entries]; [reflexivity |].
  inversion Hkeyed as [|? k0 ? ks0 _ Hrest]; subst.
  destruct k0 as [k entry]. destruct ks0 as [|k2 ks0]; [discriminate |].
  destruct (mapM string_key ((k, entry) :: k2 :: ks0)) as [sks|] eqn:Hsks;
    [| discriminate].
  destruct (head (sorted_latest sks)) eqn:Hhead; [discriminate |].
  apply sorted_latest_nil in Hhead as ->.
  apply length_mapM in Hsks. discriminate.
Qed.

Section AfterSync.
Context `{PyRuntime}.

Lemma verified_log_nonempty (self : ScrollChainSync) (fs : FileSystem) :
  verify_sync self fs = true -> log_entries fs <> [].
Proof.
  unfold verify_sync, log_entries, entries_of, existing_entry.
  destruct (String.eqb _ ""); [discriminate |].
  destruct (scrollchain_file fs) as [[|[| | | | |scrollchain]]|];
    try discriminate.
  destruct (dict_get "entries" scrollchain) as [[|[|]|q|[|]|entries|[|]]|];
    try discriminate.
  destruct entries; [discriminate | intros _; discriminate].
Qed.

(** After a [sync_registry] that reported success, [get_latest_sync]
    does not answer [None]: the log it reads has an entry. *)
Theorem latest_sync_after_success (self : ScrollChainSync) (utcnow : string)
  (force : bool) (fs : FileSystem) :
  fst (fst (sync_registry self utcnow force fs)) = true ->
  get_latest_sync self (snd (sync_registry self utcnow force fs)) <> Latest None.
Proof.
  intros Hok Hnone. apply latest_none_empty in Hnone.
  refine (verified_log_nonempty self _ _ Hnone).
  destruct (sync_registry_cases self utcnow force fs)
    as [(Hf & _) | [(_ & -> & _ & Hv) | (_ & _ & _ & Hv & _)]];
    [congruence | exact Hv | exact Hv].
Qed.


End AfterSync.

End MoreNetSyncFacts.

Section MoreNetSyncWitnesses.
Import NetSync NetSyncExamples.
Local Existing Instance sample_runtime.

Lemma sync_success_is_verified_witness :
  verify_sync default_sync synced = true.
Proof.
  apply (sync_success_is_verified default_sync "2023-11-14T22:00:00" false
           unsynced).
  vm_compute. reflexivity.
Defined.




(** Of the two entries of [resynced] the one of the next morning is
    returned. *)
Lemma latest_sync_is_newest_witness :
  exists d : dict,
    get_latest_sync default_sync resynced = Latest (Some (JObj d))
    /\ dict_get "timestamp" d = Some (JStr "2023-11-15T08:00:00")
    /\ In (JObj d) (log_entries resynced)
    /\ length (log_entries resynced) = 2%nat.
Proof.
  assert (Hrun : exists d,
             get_latest_sync default_sync resynced = Latest (Some (JObj d))
             /\ dict_get "timestamp" d = Some (JStr "2023-11-15T08:00:00"))
    by (vm_compute; eauto).
  destruct Hrun as (d & Hrun & Ht).
  exists d. split; [exact Hrun |]. split; [exact Ht |].
  split; [exact (proj1 (latest_sync_is_newest default_sync resynced _ Hrun)) |].
  vm_compute. reflexivity.
Defined.

Lemma latest_sync_after_success_witness :
  get_latest_sync default_sync synced <> Latest None.
Proof.
  apply (latest_sync_after_success default_sync "2023-11-14T22:00:00" false
           unsynced).
  vm_compute. reflexivity.
Defined.


End MoreNetSyncWitnesses.

Section AliasedPaths.
Import NetSync NetSyncExamples.
Local Existing Instance counting_runtime.

(** With one path for both files the three properties above fail: the
    entry is written into the ledger, whose hash is then another, and the
    call reports that the verification failed. *)
Example aliased_sync_fails_after_write :
  let r := sync_registry_on aliased_sync "2023-11-14T22:00:00" false ledger_only in
  fst r = (false, VerificationFailed)
  /\ snd r <> ledger_only
  /\ length (log_entries (files_of aliased_sync (snd r))) = 1%nat.
Proof.
  cbv zeta. split; [vm_compute; reflexivity |].
  split; [| vm_compute; reflexivity].
  intros Heq.
  assert (Hlog : length (log_entries (files_of aliased_sync
             (snd (sync_registry_on aliased_sync "2023-11-14T22:00:00" false
                     ledger_only)))) = 1%nat) by (vm_compute; reflexivity).
  rewrite Heq in Hlog. vm_compute in Hlog. discriminate.
Qed.

End AliasedPaths.
